(** * Task manager client: session handling, task collection, form validation

    A shallow embedding of the client-side logic of the task management
    application:

    - [contexts/AuthContext.tsx]  (auth session manager),
    - [contexts/TaskContext.tsx]  (task collection manager),
    - [pages/Tasks.tsx]           (filter-to-query glue),
    - [pages/Register.tsx]        (registration form),
    - [components/Tasks/TaskForm] (task form validation),
    - [App.tsx]                   (route guards).

    React state, [localStorage], the toast/console side channels and the
    log of requests handed to the HTTP client are gathered in one [World]
    record.  Asynchronous manager operations are written in a small
    state-and-exception monad [M]; what the server answers is an explicit
    argument of each operation.

    Strings stand for JavaScript strings whose code units lie in the
    Latin-1 range: one [ascii] per UTF-16 code unit, so [String.length] is
    the [.length] property. *)

From Stdlib Require Import ZArith NArith Lia Ascii String.
From stdpp Require Import base tactics option list strings gmap.

Local Open Scope string_scope.

(** ** JavaScript values *)

(** Truthiness of a string: only the empty string is falsy. *)
Definition truthy (s : string) : bool :=
  match s with
  | EmptyString => false
  | String _ _ => true
  end.

(** Truthiness of a possibly [undefined] string. *)
Definition truthy_opt (o : option string) : bool :=
  match o with
  | Some s => truthy s
  | None => false
  end.

(** [o || fallback] for a possibly [undefined] string [o]. *)
Definition or_else (o : option string) (fallback : string) : string :=
  match o with
  | Some s => if truthy s then s else fallback
  | None => fallback
  end.

(** [String(v)] as applied by [localStorage.setItem] to its value. *)
Definition to_js_string (o : option string) : string :=
  match o with
  | Some s => s
  | None => "undefined"
  end.

(** ** Data model *)

Inductive Status := pending | in_progress | completed.
Inductive Priority := low | medium | high.

(** [interface Task] of [TaskContext.tsx]. *)
Record Task := mkTask {
  _id : string;
  title : string;
  description : option string;
  status : Status;
  priority : Priority;
  dueDate : option string;
  category : option string;
  createdAt : string;
  updatedAt : string;
  completedAt : option string;
}.

(** [Partial<Task>] as sent by the task form. *)
Record TaskData := mkTaskData {
  td_title : option string;
  td_description : option string;
  td_status : option Status;
  td_priority : option Priority;
  td_dueDate : option string;
  td_category : option string;
}.

(** [interface TaskStats]. *)
Record TaskStats := mkTaskStats {
  total : N;
  overdue : N;
  byStatus : Status → option N;
  byPriority : Priority → option N;
}.

(** [interface User] of [AuthContext.tsx]. *)
Record User := mkUser {
  id : string;
  name : string;
  email : string;
  role : string;
  userCreatedAt : string;
  lastLogin : option string;
}.

(** ** HTTP exchange *)

Inductive Method := GET | POST | PUT | DELETE.

Inductive Payload :=
  | NoPayload
  | LoginPayload (email password : string)
  | RegisterPayload (name email password : string)
  | ProfilePayload (name email : option string)
  | TaskPayload (taskData : TaskData).

(** A request as it leaves the API client. *)
Record Request := mkRequest {
  method : Method;
  url : string;
  payload : Payload;
  bearer : option string;
}.

(** [response.data] of the task endpoints: [{success, data, message}]. *)
Record Body (A : Type) := mkBody {
  success : bool;
  data : A;
  message : option string;
}.
Arguments mkBody {A}.
Arguments success {A}.
Arguments data {A}.
Arguments message {A}.

(** [response.data] of the auth endpoints: [{success, token, user, message}]. *)
Record AuthBody := mkAuthBody {
  auth_success : bool;
  auth_token : option string;
  auth_user : option User;
  auth_message : option string;
}.

(** The [response] carried by a rejected request, with [data?.message]
    flattened to one optional string. *)
Record ErrorResponse := mkErrorResponse {
  err_status : N;
  err_message : option string;
}.

(** The value a request is rejected with; [response] is absent on a
    transport failure. *)
Record JsError := mkJsError {
  response : option ErrorResponse;
}.

(** [error.response?.data?.message]. *)
Definition error_message (e : JsError) : option string :=
  r ← response e; err_message r.

(** How one request is settled for the manager that sent it: resolved with
    a response body, or rejected with an error.  A response without a body
    makes the manager's own [response.data.success] throw inside its [try];
    its [catch] then sees an error without [response], which is the
    rejection [Reject (mkJsError None)]. *)
Inductive ApiOutcome (B : Type) :=
  | Resolve (body : B)
  | Reject (error : JsError).
Arguments Resolve {B}.
Arguments Reject {B}.

(** The request failed from the manager's point of view. *)
Definition failed {A} (out : ApiOutcome (Body A)) : Prop :=
  match out with
  | Resolve b => success b = false
  | Reject _ => True
  end.

Definition auth_failed (out : ApiOutcome AuthBody) : Prop :=
  match out with
  | Resolve b => auth_success b = false
  | Reject _ => True
  end.

(** ** The world the managers act on *)

Inductive Toast :=
  | ToastSuccess (text : string)
  | ToastError (text : string).

Record World := mkWorld {
  token : option string;       (* localStorage item 'token' *)
  user : option User;          (* AuthProvider state *)
  auth_loading : bool;         (* AuthProvider state, initially true *)
  tasks : list Task;           (* TaskProvider state *)
  stats : option TaskStats;    (* TaskProvider state *)
  loading : bool;              (* TaskProvider state *)
  toasts : list Toast;         (* react-hot-toast notifications, oldest first *)
  console : list string;       (* console.error labels, oldest first *)
  requests : list Request;     (* requests sent, oldest first *)
}.

Definition set_token (v : option string) (w : World) : World :=
  mkWorld v (user w) (auth_loading w) (tasks w) (stats w) (loading w)
          (toasts w) (console w) (requests w).
Definition set_user (v : option User) (w : World) : World :=
  mkWorld (token w) v (auth_loading w) (tasks w) (stats w) (loading w)
          (toasts w) (console w) (requests w).
Definition set_auth_loading (v : bool) (w : World) : World :=
  mkWorld (token w) (user w) v (tasks w) (stats w) (loading w)
          (toasts w) (console w) (requests w).
Definition set_tasks (v : list Task) (w : World) : World :=
  mkWorld (token w) (user w) (auth_loading w) v (stats w) (loading w)
          (toasts w) (console w) (requests w).
Definition set_stats (v : option TaskStats) (w : World) : World :=
  mkWorld (token w) (user w) (auth_loading w) (tasks w) v (loading w)
          (toasts w) (console w) (requests w).
Definition set_loading (v : bool) (w : World) : World :=
  mkWorld (token w) (user w) (auth_loading w) (tasks w) (stats w) v
          (toasts w) (console w) (requests w).
Definition add_toast (t : Toast) (w : World) : World :=
  mkWorld (token w) (user w) (auth_loading w) (tasks w) (stats w) (loading w)
          (toasts w ++ [t]) (console w) (requests w).
Definition add_console (s : string) (w : World) : World :=
  mkWorld (token w) (user w) (auth_loading w) (tasks w) (stats w) (loading w)
          (toasts w) (console w ++ [s]) (requests w).
Definition add_request (r : Request) (w : World) : World :=
  mkWorld (token w) (user w) (auth_loading w) (tasks w) (stats w) (loading w)
          (toasts w) (console w) (requests w ++ [r]).

(** The world a freshly loaded page starts from: React state at its
    [useState] defaults, [localStorage] as the previous visit left it. *)
Definition initial_world (stored : option string) : World :=
  mkWorld stored None true [] None false [] [] [].

(** ** The effect monad *)

(** How a computation completes: with a value, or by throwing. *)
Inductive Completion (A : Type) :=
  | Returned (a : A)
  | Thrown (e : JsError).
Arguments Returned {A}.
Arguments Thrown {A}.

Definition M (A : Type) : Type := World → Completion A * World.

Definition run {A} (m : M A) (w : World) : Completion A * World := m w.
Definition exec {A} (m : M A) (w : World) : World := snd (m w).
Definition result {A} (m : M A) (w : World) : Completion A := fst (m w).

#[export] Instance M_ret : MRet M := λ A a w, (Returned a, w).
#[export] Instance M_bind : MBind M := λ A B f m w,
  match m w with
  | (Returned a, w') => f a w'
  | (Thrown e, w') => (Thrown e, w')
  end.

Definition throw {A} (e : JsError) : M A := λ w, (Thrown e, w).
Definition gets {A} (f : World → A) : M A := λ w, (Returned (f w), w).
Definition modify (f : World → World) : M unit := λ w, (Returned (), f w).

(** [try { body } catch (error) { handler }]. *)
Definition try_catch {A} (body : M A) (handler : JsError → M A) : M A := λ w,
  match body w with
  | (Returned a, w') => (Returned a, w')
  | (Thrown e, w') => handler e w'
  end.

(** [try { body } finally { cleanup }], for a [cleanup] that has no
    [return] of its own: the completion of [body] is kept unless
    [cleanup] throws. *)
Definition try_finally {A} (body : M A) (cleanup : M unit) : M A := λ w,
  match body w with
  | (c, w') =>
      match cleanup w' with
      | (Returned _, w'') => (c, w'')
      | (Thrown e, w'') => (Thrown e, w'')
      end
  end.

(** ** Ambient services *)

Definition toast_success (text : string) : M unit := modify (add_toast (ToastSuccess text)).
Definition toast_error (text : string) : M unit := modify (add_toast (ToastError text)).
Definition console_error (label : string) : M unit := modify (add_console label).

Definition localStorage_getItem : M (option string) := gets token.
Definition localStorage_setItem (v : string) : M unit := modify (set_token (Some v)).
Definition localStorage_removeItem : M unit := modify (set_token None).

Definition setUser (u : option User) : M unit := modify (set_user u).
Definition setAuthLoading (b : bool) : M unit := modify (set_auth_loading b).
Definition setTasks (f : list Task → list Task) : M unit :=
  modify (λ w, set_tasks (f (tasks w)) w).
Definition setStats (s : option TaskStats) : M unit := modify (set_stats s).
Definition setLoading (b : bool) : M unit := modify (set_loading b).

(** Modelled from the spec: the session-clearing effect of the API client's
    response interceptor ([services/api] is not among the sources).  The
    spec: the interceptor "clears the session on a 401 response", the
    session being "token string + resolved User". *)
Definition clear_session : M unit :=
  modify (λ w, set_user None (set_token None w)).

(** Modelled from the spec: the response interceptor of the API client. *)
Definition response_interceptor (e : JsError) : M unit :=
  match response e with
  | Some r => if decide (err_status r = 401%N) then clear_session else mret ()
  | None => mret ()
  end.

(** Modelled from the spec: the API client ([services/api] is not among the
    sources), "a single HTTP client configured with a base URL and an
    interceptor that attaches the stored token to every outgoing request
    and clears the session on a 401 response".  The request is sent with
    the stored token attached; [out] is how the server settles it. *)
Definition api {B} (m : Method) (path : string) (p : Payload)
    (out : ApiOutcome B) : M B :=
  stored ← localStorage_getItem;
  modify (add_request (mkRequest m path p stored));;
  match out with
  | Resolve body => mret body
  | Reject e => response_interceptor e;; throw e
  end.

(** ** Query strings ([URLSearchParams]) *)

Definition hex_digit (n : N) : ascii :=
  match String.get (N.to_nat n) "0123456789ABCDEF" with
  | Some c => c
  | None => "0"%char
  end.

Definition percent_encode_byte (b : N) : string :=
  String "%" (String (hex_digit (b / 16)) (String (hex_digit (b mod 16)) "")).

(** UTF-8 bytes of a code unit of the Latin-1 range. *)
Definition utf8_bytes (c : ascii) : list N :=
  let n := N_of_ascii c in
  if (n <? 128)%N then [n] else [(192 + n / 64)%N; (128 + n mod 64)%N].

(** Bytes the [application/x-www-form-urlencoded] serializer leaves as they
    are: ASCII alphanumerics and [* - . _]. *)
Definition form_safe (c : ascii) : bool :=
  let n := N_of_ascii c in
  ((48 <=? n) && (n <=? 57) || (65 <=? n) && (n <=? 90) ||
   (97 <=? n) && (n <=? 122) ||
   (n =? 42) || (n =? 45) || (n =? 46) || (n =? 95))%N.

Definition urlencode_unit (c : ascii) : string :=
  if Ascii.eqb c " " then "+"
  else if form_safe c then String c ""
  else String.concat "" (map percent_encode_byte (utf8_bytes c)).

Fixpoint urlencode (s : string) : string :=
  match s with
  | EmptyString => ""
  | String c rest => urlencode_unit c ++ urlencode rest
  end.

(** [params.toString()] for the list of appended pairs. *)
Definition URLSearchParams_toString (params : list (string * string)) : string :=
  String.concat "&" (map (λ kv, urlencode kv.1 ++ "=" ++ urlencode kv.2) params).

(** ** Task collection manager ([TaskContext.tsx]) *)

(** A filters object: its own keys in insertion order, each with its value
    (possibly [undefined]). *)
Definition Filters := list (string * option string).

Definition Object_keys (o : Filters) : list string := map fst o.

(** [filters[key]]: the value stored under [key], [undefined] when the property
    holds [undefined] or does not exist. *)
Fixpoint get_property (key : string) (o : Filters) : option string :=
  match o with
  | [] => None
  | (k, v) :: rest => if decide (k = key) then v else get_property key rest
  end.

(** The pairs appended to [params] by the [forEach] of [fetchTasks]. *)
Definition query_params (filters : option Filters) : list (string * string) :=
  match filters with
  | None => []
  | Some o =>
      foldl (λ params key,
               match get_property key o with
               | Some v => if truthy v then (params ++ [(key, v)])%list else params
               | None => params
               end) [] (Object_keys o)
  end.

(** What one key contributes to the query. *)
Definition forwarded (o : Filters) (key : string) : option (string * string) :=
  match get_property key o with
  | Some v => if truthy v then Some (key, v) else None
  | None => None
  end.

(** The objects the task page passes: distinct keys among [status],
    [priority] and [category]. *)
Definition filters_object (o : Filters) : Prop :=
  NoDup (Object_keys o) ∧
  Forall (λ key, key ∈ ["status"; "priority"; "category"]) (Object_keys o).

Definition well_formed_filters (filters : option Filters) : Prop :=
  match filters with
  | None => True
  | Some o => filters_object o
  end.

(** The key-value pairs of a possibly absent filters object. *)
Definition entries (filters : option Filters) : Filters :=
  match filters with
  | None => []
  | Some o => o
  end.

Definition fetchTasks (filters : option Filters)
    (out : ApiOutcome (Body (list Task))) : M unit :=
  try_finally
    (try_catch
       (setLoading true;;
        let params := query_params filters in
        response ← api GET ("/tasks?" ++ URLSearchParams_toString params) NoPayload out;
        if success response then setTasks (λ _, data response) else mret ())
       (λ error,
        console_error "Fetch tasks error:";;
        toast_error "Failed to fetch tasks"))
    (setLoading false).

Definition fetchStats (out : ApiOutcome (Body TaskStats)) : M unit :=
  try_catch
    (response ← api GET "/tasks/stats" NoPayload out;
     if success response then setStats (Some (data response)) else mret ())
    (λ error, console_error "Fetch stats error:").

(** [createTask] starts [fetchStats()] without awaiting it; [stats_out] is
    how that request is settled. *)
Definition createTask (taskData : TaskData)
    (out : ApiOutcome (Body Task)) (stats_out : ApiOutcome (Body TaskStats)) : M bool :=
  try_catch
    (response ← api POST "/tasks" (TaskPayload taskData) out;
     if success response then
       setTasks (λ prev, data response :: prev);;
       toast_success "Task created successfully!";;
       fetchStats stats_out;;
       mret true
     else
       toast_error (or_else (message response) "Failed to create task");;
       mret false)
    (λ error,
     let message := or_else (error_message error) "Failed to create task" in
     toast_error message;;
     mret false).

Definition updateTask (id : string) (taskData : TaskData)
    (out : ApiOutcome (Body Task)) (stats_out : ApiOutcome (Body TaskStats)) : M bool :=
  try_catch
    (response ← api PUT ("/tasks/" ++ id) (TaskPayload taskData) out;
     if success response then
       setTasks (λ prev, map (λ task, if decide (_id task = id) then data response else task) prev);;
       toast_success "Task updated successfully!";;
       fetchStats stats_out;;
       mret true
     else
       toast_error (or_else (message response) "Failed to update task");;
       mret false)
    (λ error,
     let message := or_else (error_message error) "Failed to update task" in
     toast_error message;;
     mret false).

Definition deleteTask {A} (id : string)
    (out : ApiOutcome (Body A)) (stats_out : ApiOutcome (Body TaskStats)) : M bool :=
  try_catch
    (response ← api DELETE ("/tasks/" ++ id) NoPayload out;
     if success response then
       setTasks (λ prev, filter (λ task, _id task ≠ id) prev);;
       toast_success "Task deleted successfully!";;
       fetchStats stats_out;;
       mret true
     else
       toast_error (or_else (message response) "Failed to delete task");;
       mret false)
    (λ error,
     let message := or_else (error_message error) "Failed to delete task" in
     toast_error message;;
     mret false).

Definition getTask (id : string) (out : ApiOutcome (Body Task)) : M (option Task) :=
  try_catch
    (response ← api GET ("/tasks/" ++ id) NoPayload out;
     if success response then mret (Some (data response)) else mret None)
    (λ error,
     console_error "Get task error:";;
     mret None).

(** [handleFilterChange] of [pages/Tasks.tsx]: the filter state of the page
    and the object it hands to [fetchTasks]. *)
Record FilterState := mkFilterState {
  filter_status : string;
  filter_priority : string;
  filter_category : string;
}.

Definition queryParams (filters : FilterState) : Filters :=
  ((if truthy (filter_status filters) then [("status", Some (filter_status filters))] else []) ++
   (if truthy (filter_priority filters) then [("priority", Some (filter_priority filters))] else []) ++
   (if truthy (filter_category filters) then [("category", Some (filter_category filters))] else []))%list.

Definition handleFilterChange (filters : FilterState)
    (out : ApiOutcome (Body (list Task))) : M unit :=
  fetchTasks (Some (queryParams filters)) out.

(** ** Auth session manager ([AuthContext.tsx]) *)

Definition checkAuthStatus (out : ApiOutcome AuthBody) : M unit :=
  try_finally
    (try_catch
       (token ← localStorage_getItem;
        if negb (truthy_opt token) then
          setAuthLoading false (* return *)
        else
          response ← api GET "/auth/me" NoPayload out;
          if auth_success response then setUser (auth_user response)
          else localStorage_removeItem)
       (λ error,
        console_error "Auth check failed:";;
        localStorage_removeItem))
    (setAuthLoading false).

Definition login (email password : string) (out : ApiOutcome AuthBody) : M bool :=
  try_catch
    (response ← api POST "/auth/login" (LoginPayload email password) out;
     if auth_success response then
       localStorage_setItem (to_js_string (auth_token response));;
       setUser (auth_user response);;
       toast_success "Login successful!";;
       mret true
     else
       toast_error (or_else (auth_message response) "Login failed");;
       mret false)
    (λ error,
     let message := or_else (error_message error) "Login failed" in
     toast_error message;;
     mret false).

Definition register (name email password : string) (out : ApiOutcome AuthBody) : M bool :=
  try_catch
    (response ← api POST "/auth/register" (RegisterPayload name email password) out;
     if auth_success response then
       localStorage_setItem (to_js_string (auth_token response));;
       setUser (auth_user response);;
       toast_success "Registration successful!";;
       mret true
     else
       toast_error (or_else (auth_message response) "Registration failed");;
       mret false)
    (λ error,
     let message := or_else (error_message error) "Registration failed" in
     toast_error message;;
     mret false).

Definition logout : M unit :=
  localStorage_removeItem;;
  setUser None;;
  toast_success "Logged out successfully".

Definition updateProfile (name email : option string) (out : ApiOutcome AuthBody) : M bool :=
  try_catch
    (response ← api PUT "/auth/profile" (ProfilePayload name email) out;
     if auth_success response then
       setUser (auth_user response);;
       toast_success "Profile updated successfully!";;
       mret true
     else
       toast_error (or_else (auth_message response) "Profile update failed");;
       mret false)
    (λ error,
     let message := or_else (error_message error) "Profile update failed" in
     toast_error message;;
     mret false).

(** ** Route guards ([App.tsx]) *)

Inductive View :=
  | LoadingSpinner
  | Children
  | Navigate (to : string).

Definition ProtectedRoute (w : World) : View :=
  if auth_loading w then LoadingSpinner
  else match user w with
       | Some _ => Children
       | None => Navigate "/login"
       end.

Definition PublicRoute (w : World) : View :=
  if auth_loading w then LoadingSpinner
  else match user w with
       | None => Children
       | Some _ => Navigate "/dashboard"
       end.

(** ** White space and the e-mail pattern *)

(** JavaScript white space and line terminators within the Latin-1 range:
    what [\s] matches and [trim] strips. *)
Definition is_whitespace (c : ascii) : bool :=
  let n := N_of_ascii c in
  ((9 <=? n) && (n <=? 13) || (n =? 32) || (n =? 160))%N.

Fixpoint trimStart (s : string) : string :=
  match s with
  | EmptyString => ""
  | String c rest => if is_whitespace c then trimStart rest else s
  end.

Definition trim (s : string) : string :=
  String.rev (trimStart (String.rev (trimStart s))).

(** [\S+] followed by whatever [rest] accepts, anchored at the head of [s]. *)
Fixpoint non_space_plus (rest : string → bool) (s : string) : bool :=
  match s with
  | EmptyString => false
  | String c s' =>
      if is_whitespace c then false
      else non_space_plus rest s' || rest s'
  end.

(** A literal character followed by whatever [rest] accepts. *)
Definition literal (c : ascii) (rest : string → bool) (s : string) : bool :=
  match s with
  | EmptyString => false
  | String c' s' => Ascii.eqb c' c && rest s'
  end.

(** [\S+@\S+\.\S+] anchored at the head of [s]. *)
Definition email_pattern_here (s : string) : bool :=
  non_space_plus (literal "@" (non_space_plus (literal "." (non_space_plus (λ _, true))))) s.

(** [/\S+@\S+\.\S+/.test(s)]: the pattern matches at some position. *)
Fixpoint email_pattern_test (s : string) : bool :=
  email_pattern_here s ||
  match s with
  | EmptyString => false
  | String _ s' => email_pattern_test s'
  end.

(** ** Registration form ([pages/Register.tsx]) *)

Module Register.

Record FormData := mkFormData {
  name : string;
  email : string;
  password : string;
  confirmPassword : string;
}.

(** Component state of the page. *)
Record State := mkState {
  formData : FormData;
  loading : bool;
  errors : gmap string string;
}.

(** The [newErrors] object built by [validateForm]. *)
Definition newErrors (formData : FormData) : gmap string string :=
  let e0 : gmap string string := ∅ in
  let e1 :=
    if negb (truthy (name formData)) then
      <["name" := "Name is required"]> e0
    else if (String.length (name formData) <? 2)%nat then
      <["name" := "Name must be at least 2 characters"]> e0
    else e0 in
  let e2 :=
    if negb (truthy (email formData)) then
      <["email" := "Email is required"]> e1
    else if negb (email_pattern_test (email formData)) then
      <["email" := "Email is invalid"]> e1
    else e1 in
  let e3 :=
    if negb (truthy (password formData)) then
      <["password" := "Password is required"]> e2
    else if (String.length (password formData) <? 6)%nat then
      <["password" := "Password must be at least 6 characters"]> e2
    else e2 in
  let e4 :=
    if negb (truthy (confirmPassword formData)) then
      <["confirmPassword" := "Please confirm your password"]> e3
    else if bool_decide (password formData ≠ confirmPassword formData) then
      <["confirmPassword" := "Passwords do not match"]> e3
    else e3 in
  e4.

(** [validateForm]: the new component state and the returned verdict,
    [Object.keys(newErrors).length === 0]. *)
Definition validateForm (st : State) : State * bool :=
  let errs := newErrors (formData st) in
  (mkState (formData st) (loading st) errs, bool_decide (size errs = 0)).

Definition handleSubmit (st : State) (out : ApiOutcome AuthBody) : M State :=
  let (st1, valid) := validateForm st in
  if negb valid then mret st1 (* return *)
  else
    let st2 := mkState (formData st1) true (errors st1) in
    success ← register (name (formData st2)) (email (formData st2))
                       (password (formData st2)) out;
    let st3 := mkState (formData st2) false (errors st2) in
    if negb success then
      mret (mkState (formData st3) (loading st3)
                    {["general" := "Registration failed. Please try again."]})
    else mret st3.

End Register.

(** ** Dates *)

Module Date.

Local Open Scope Z_scope.

Definition msPerDay : Z := 86400000.
Definition msPerMinute : Z := 60000.

(** The clock of the browser: the current instant, in milliseconds since
    the epoch, and the offset of local time from UTC in minutes (positive
    east of Greenwich), taken constant around [now]. *)
Record Clock := mkClock {
  now : Z;
  utc_offset_minutes : Z;
}.

Definition LocalTZA (clk : Clock) : Z := utc_offset_minutes clk * msPerMinute.

Definition isLeapYear (y : Z) : bool :=
  (y mod 4 =? 0) && (negb (y mod 100 =? 0) || (y mod 400 =? 0)).

Definition DaysInMonth (y m : Z) : Z :=
  if m =? 2 then (if isLeapYear y then 29 else 28)
  else if (m =? 4) || (m =? 6) || (m =? 9) || (m =? 11) then 30
  else 31.

(** Day number of 1 January of year [y] (ECMAScript [DayFromYear]). *)
Definition DayFromYear (y : Z) : Z :=
  365 * (y - 1970) + (y - 1969) / 4 - (y - 1901) / 100 + (y - 1601) / 400.

(** Days of year [y] that precede month [m] (1-based). *)
Fixpoint days_before_month (y : Z) (m : nat) : Z :=
  match m with
  | O | S O => 0
  | S m' => days_before_month y m' + DaysInMonth y (Z.of_nat m')
  end.

(** Day number of a calendar date (ECMAScript [MakeDay]), months 1-based. *)
Definition MakeDay (y m d : Z) : Z :=
  DayFromYear y + days_before_month y (Z.to_nat m) + (d - 1).

Definition digit (c : ascii) : option Z :=
  let n := Z.of_N (N_of_ascii c) in
  if (48 <=? n) && (n <=? 57) then Some (n - 48) else None.

Fixpoint digits (acc : Z) (s : string) : option Z :=
  match s with
  | EmptyString => Some acc
  | String c rest => d ← digit c; digits (10 * acc + d) rest
  end.

(** The calendar date named by a date-only string [YYYY-MM-DD], the form a
    date input holds. *)
Definition parse_date_only (s : string) : option (Z * Z * Z) :=
  if negb (String.length s =? 10)%nat then None
  else if negb (bool_decide (String.get 4 s = Some "-"%char)) then None
  else if negb (bool_decide (String.get 7 s = Some "-"%char)) then None
  else
    y ← digits 0 (substring 0 4 s);
    m ← digits 0 (substring 5 2 s);
    d ← digits 0 (substring 8 2 s);
    if (1 <=? m) && (m <=? 12) && (1 <=? d) && (d <=? DaysInMonth y m)
    then Some (y, m, d) else None.

(** [new Date(s).getTime()] for a date-only string: midnight UTC of the
    named day.  [None] stands for [NaN]; strings of any other form are
    outside the model and are given [NaN]. *)
Definition getTime (s : string) : option Z :=
  '(y, m, d) ← parse_date_only s;
  Some (MakeDay y m d * msPerDay).

(** [new Date().setHours(0, 0, 0, 0)]: the instant of the most recent local
    midnight. *)
Definition setHours_0 (clk : Clock) : Z :=
  let t := now clk + LocalTZA clk in          (* LocalTime *)
  let date := (t / msPerDay) * msPerDay in     (* MakeDate (Day t) 0 *)
  date - LocalTZA clk.                         (* UTC *)

(** The local calendar day of the current instant, as a day number. *)
Definition today (clk : Clock) : Z := (now clk + LocalTZA clk) / msPerDay.

(** The calendar day a date-only string names, as a day number. *)
Definition day_of (s : string) : option Z :=
  '(y, m, d) ← parse_date_only s;
  Some (MakeDay y m d).

(** [a < b] where [a] may be [NaN]. *)
Definition lt_number (a : option Z) (b : Z) : bool :=
  match a with
  | Some x => x <? b
  | None => false
  end.

End Date.

(** ** Task form ([components/Tasks/TaskForm]) *)

Module TaskForm.

Record FormData := mkFormData {
  title : string;
  description : string;
  status : Status;
  priority : Priority;
  dueDate : string;
  category : string;
}.

(** The due-date test of [validateForm]:
    [dueDate && new Date(dueDate).getTime() < new Date().setHours(0, 0, 0, 0)]. *)
Definition due_date_in_past (clk : Date.Clock) (dueDate : string) : bool :=
  truthy dueDate && Date.lt_number (Date.getTime dueDate) (Date.setHours_0 clk).

(** The [newErrors] object built by [validateForm]. *)
Definition newErrors (clk : Date.Clock) (formData : FormData) : gmap string string :=
  let e0 : gmap string string := ∅ in
  let e1 :=
    if negb (truthy (trim (title formData))) then
      <["title" := "Title is required"]> e0
    else if (100 <? String.length (title formData))%nat then
      <["title" := "Title cannot exceed 100 characters"]> e0
    else e0 in
  let e2 :=
    if truthy (description formData) && (500 <? String.length (description formData))%nat then
      <["description" := "Description cannot exceed 500 characters"]> e1
    else e1 in
  let e3 :=
    if truthy (category formData) && (50 <? String.length (category formData))%nat then
      <["category" := "Category cannot exceed 50 characters"]> e2
    else e2 in
  let e4 :=
    if due_date_in_past clk (dueDate formData) then
      <["dueDate" := "Due date cannot be in the past"]> e3
    else e3 in
  e4.

(** [validateForm]: the errors it stores and the verdict it returns. *)
Definition validateForm (clk : Date.Clock) (formData : FormData)
    : gmap string string * bool :=
  let errs := newErrors clk formData in
  (errs, bool_decide (size errs = 0)).

End TaskForm.

(** ** Strings of the list and search views *)




(** No code unit of the string is white space. *)
Fixpoint all_non_space (s : string) : bool :=
  match s with
  | EmptyString => true
  | String c rest => negb (is_whitespace c) && all_non_space rest
  end.

(** Every code unit of the string is white space. *)
Fixpoint all_space (s : string) : bool :=
  match s with
  | EmptyString => true
  | String c rest => is_whitespace c && all_space rest
  end.

(** A non-empty run of code units none of which is white space: what [\S+]
    matches. *)
Definition non_space_word (a : string) : Prop := a ≠ "" ∧ all_non_space a = true.

(** How often a code unit occurs in a string. *)
Fixpoint count_unit (c : ascii) (s : string) : nat :=
  match s with
  | EmptyString => 0
  | String c' rest => (if Ascii.eqb c' c then 1 else 0) + count_unit c rest
  end.

(** ** Task list page ([pages/Tasks.tsx]) *)

Module TasksPage.



(** [Object.values(filters).some(f => f)]. *)
Definition some_filter (filters : FilterState) : bool :=
  existsb truthy [filter_status filters; filter_priority filters; filter_category filters].

End TasksPage.

(** ** Filter controls ([components/Tasks/TaskFilters]) *)

Module TaskFilters.

(** The keys [handleFilterChange] is called with by the three controls. *)
Inductive FilterKey := key_status | key_priority | key_category.

Definition key_name (key : FilterKey) : string :=
  match key with
  | key_status => "status"
  | key_priority => "priority"
  | key_category => "category"
  end.

(** [handleFilterChange]: the object handed to [onFiltersChange],
    [{...filters, [key]: value}]. *)
Definition handleFilterChange (key : FilterKey) (value : string)
    (filters : FilterState) : FilterState :=
  match key with
  | key_status => mkFilterState value (filter_priority filters) (filter_category filters)
  | key_priority => mkFilterState (filter_status filters) value (filter_category filters)
  | key_category => mkFilterState (filter_status filters) (filter_priority filters) value
  end.

(** [clearFilters]: the object handed to [onFiltersChange]. *)
Definition clearFilters : FilterState := mkFilterState "" "" "".

(** Whether the "Clear Filters" button is rendered:
    [filters.status || filters.priority || filters.category]. *)
Definition shows_clear (filters : FilterState) : bool :=
  truthy (or_else (Some (or_else (Some (filter_status filters)) (filter_priority filters)))
                  (filter_category filters)).

End TaskFilters.

(** ** Dashboard *)

Module Dashboard.

(** [tasks.slice(0, 5)]. *)
Definition recentTasks (tasks : list Task) : list Task := take 5 tasks.

End Dashboard.

(** ** Profile page *)

(** [user?.name] and [user?.email]. *)
Definition user_name (u : option User) : option string := name <$> u.
Definition user_email (u : option User) : option string := email <$> u.

Module Profile.

Record FormData := mkFormData {
  name : string;
  email : string;
}.

(** Component state of the page. *)
Record State := mkState {
  formData : FormData;
  isEditing : bool;
  loading : bool;
  errors : gmap string string;
}.

(** The form as first rendered, and as [handleCancel] resets it. *)
Definition initialFormData (user : option User) : FormData :=
  mkFormData (or_else (user_name user) "") (or_else (user_email user) "").

(** The [newErrors] object built by [validateForm]. *)
Definition newErrors (formData : FormData) : gmap string string :=
  let e0 : gmap string string := ∅ in
  let e1 :=
    if negb (truthy (trim (name formData))) then
      <["name" := "Name is required"]> e0
    else if (String.length (name formData) <? 2)%nat then
      <["name" := "Name must be at least 2 characters"]> e0
    else e0 in
  let e2 :=
    if negb (truthy (trim (email formData))) then
      <["email" := "Email is required"]> e1
    else if negb (email_pattern_test (email formData)) then
      <["email" := "Email is invalid"]> e1
    else e1 in
  e2.

Definition validateForm (st : State) : State * bool :=
  let errs := newErrors (formData st) in
  (mkState (formData st) (isEditing st) (loading st) errs, bool_decide (size errs = 0)).

Definition handleSubmit (st : State) (out : ApiOutcome AuthBody) : M State :=
  let (st1, valid) := validateForm st in
  if negb valid then mret st1 (* return *)
  else
    let st2 := mkState (formData st1) (isEditing st1) true (errors st1) in
    success ← updateProfile (Some (name (formData st2))) (Some (email (formData st2))) out;
    let st3 := mkState (formData st2) (isEditing st2) false (errors st2) in
    if (success : bool) then mret (mkState (formData st3) false (loading st3) (errors st3))
    else mret st3.

Definition handleCancel (user : option User) (st : State) : State :=
  mkState (initialFormData user) false (loading st) ∅.

End Profile.

(** ** ISO date-time strings *)

Module DateISO.

Local Open Scope Z_scope.

(** [YearFromTime] for day numbers of the years 0000-9999: the last year
    whose first day is not after [day], searched upward from [y]. *)
Fixpoint year_from (fuel : nat) (y day : Z) : Z :=
  match fuel with
  | O => y
  | S fuel' =>
      if Date.DayFromYear (y + 1) <=? day then year_from fuel' (y + 1) day else y
  end.

Definition YearFromDay (day : Z) : Z := year_from (Z.to_nat 10000) 0 day.

(** [MonthFromTime], 1-based: the last month that starts not after the day
    of the year [dayInYear], searched upward from [m]. *)
Fixpoint month_from (fuel : nat) (y m dayInYear : Z) : Z :=
  match fuel with
  | O => m
  | S fuel' =>
      if Date.days_before_month y (Z.to_nat (m + 1)) <=? dayInYear
      then month_from fuel' y (m + 1) dayInYear else m
  end.

Definition MonthFromDay (y dayInYear : Z) : Z := month_from 11 y 1 dayInYear.

Definition digit_char (n : Z) : ascii := ascii_of_N (Z.to_N (48 + n)).

(** The decimal digits of [n], padded with zeros to [width] places. *)
Fixpoint pad (width : nat) (n : Z) : string :=
  match width with
  | O => ""
  | S width' => pad width' (n / 10) ++ String (digit_char (n mod 10)) ""
  end.

(** [new Date(t).toISOString()] for an instant [t] of the years 0000-9999. *)
Definition toISOString (t : Z) : string :=
  let day := t / Date.msPerDay in
  let ms := t mod Date.msPerDay in
  let y := YearFromDay day in
  let dayInYear := day - Date.DayFromYear y in
  let m := MonthFromDay y dayInYear in
  let d := dayInYear - Date.days_before_month y (Z.to_nat m) + 1 in
  pad 4 y ++ "-" ++ pad 2 m ++ "-" ++ pad 2 d ++ "T" ++
  pad 2 (ms / 3600000) ++ ":" ++ pad 2 (ms / 60000 mod 60) ++ ":" ++
  pad 2 (ms / 1000 mod 60) ++ "." ++ pad 3 (ms mod 1000) ++ "Z".

(** [s.split('T')[0]]: what comes before the first [T]. *)
Fixpoint before_T (s : string) : string :=
  match s with
  | EmptyString => ""
  | String c rest => if Ascii.eqb c "T" then "" else String c (before_T rest)
  end.

(** The time of day, in milliseconds, named by [HH:mm:ss.sssZ]. *)
Definition parse_time (s : string) : option Z :=
  if negb (String.length s =? 13)%nat then None
  else if negb (bool_decide (String.get 2 s = Some ":"%char)) then None
  else if negb (bool_decide (String.get 5 s = Some ":"%char)) then None
  else if negb (bool_decide (String.get 8 s = Some "."%char)) then None
  else if negb (bool_decide (String.get 12 s = Some "Z"%char)) then None
  else
    h ← Date.digits 0 (substring 0 2 s);
    mi ← Date.digits 0 (substring 3 2 s);
    sec ← Date.digits 0 (substring 6 2 s);
    ms ← Date.digits 0 (substring 9 3 s);
    if (h <=? 24) && (mi <=? 59) && (sec <=? 59) &&
       ((h <? 24) || ((mi =? 0) && (sec =? 0) && (ms =? 0)))
    then Some (h * 3600000 + mi * 60000 + sec * 1000 + ms) else None.

(** [new Date(s).getTime()] for the two forms the application meets: the
    date-only form of a date input, and the UTC date-time form
    [YYYY-MM-DDTHH:mm:ss.sssZ] that [toISOString] and the server's JSON
    produce.  [None] stands for [NaN]; strings of any other form are outside
    the model and are given [NaN]. *)
Definition getTime (s : string) : option Z :=
  if (String.length s =? 10)%nat then Date.getTime s
  else if negb (bool_decide (String.get 10 s = Some "T"%char)) then None
  else
    date ← Date.getTime (substring 0 10 s);
    time ← parse_time (substring 11 13 s);
    Some (date + time).

End DateISO.

(** ** Submitting the task form, and the overdue mark *)

Module TaskFormSubmit.

(** Component state of the form; [succeeded] records a call of [onSuccess]. *)
Record State := mkState {
  formData : TaskForm.FormData;
  loading : bool;
  errors : gmap string string;
  succeeded : bool;
}.

(** The form as first rendered for [task] (absent when creating). *)
Definition initialFormData (task : option Task) : TaskForm.FormData :=
  match task with
  | None => TaskForm.mkFormData "" "" pending medium "" ""
  | Some t =>
      TaskForm.mkFormData
        (title t)
        (or_else (description t) "")
        (status t)
        (priority t)
        (if truthy_opt (dueDate t) then DateISO.before_T (to_js_string (dueDate t)) else "")
        (or_else (category t) "")
  end.

(** [new Date(dueDate).toISOString()], which throws a [RangeError] on an
    invalid date. *)
Definition dueDate_toISOString (dueDate : string) : M string :=
  match Date.getTime dueDate with
  | Some t => mret (DateISO.toISOString t)
  | None => throw (mkJsError None)
  end.

Definition handleSubmit (clk : Date.Clock) (task : option Task) (st : State)
    (out : ApiOutcome (Body Task)) (stats_out : ApiOutcome (Body TaskStats)) : M State :=
  let fd := formData st in
  let (errs, valid) := TaskForm.validateForm clk fd in
  if negb valid then mret (mkState fd (loading st) errs (succeeded st)) (* return *)
  else
    iso ← (if truthy (TaskForm.dueDate fd)
           then s ← dueDate_toISOString (TaskForm.dueDate fd); mret (Some s)
           else mret None);
    let taskData :=
      mkTaskData (Some (TaskForm.title fd)) (Some (TaskForm.description fd))
                 (Some (TaskForm.status fd)) (Some (TaskForm.priority fd))
                 iso (Some (TaskForm.category fd)) in
    success ← match task with
              | Some t => updateTask (_id t) taskData out stats_out
              | None => createTask taskData out stats_out
              end;
    mret (mkState fd false errs (if (success : bool) then true else succeeded st)).

End TaskFormSubmit.

(** [isOverdue] of [pages/Tasks.tsx]:
    [status !== 'completed' && new Date(dueDate) < new Date()]. *)
Definition isOverdue (clk : Date.Clock) (dueDate : string) (status : Status) : bool :=
  match status with
  | completed => false
  | _ => Date.lt_number (DateISO.getTime dueDate) (Date.now clk)
  end.

(** ** Sequences of manager operations *)

(** One call of a manager operation, with the server's answers. *)
Inductive Operation :=
  | OpCheckAuthStatus (out : ApiOutcome AuthBody)
  | OpLogin (email password : string) (out : ApiOutcome AuthBody)
  | OpRegister (name email password : string) (out : ApiOutcome AuthBody)
  | OpLogout
  | OpUpdateProfile (name email : option string) (out : ApiOutcome AuthBody)
  | OpFetchTasks (filters : option Filters) (out : ApiOutcome (Body (list Task)))
  | OpFetchStats (out : ApiOutcome (Body TaskStats))
  | OpCreateTask (taskData : TaskData) (out : ApiOutcome (Body Task))
                 (stats_out : ApiOutcome (Body TaskStats))
  | OpUpdateTask (id : string) (taskData : TaskData) (out : ApiOutcome (Body Task))
                 (stats_out : ApiOutcome (Body TaskStats))
  | OpDeleteTask (id : string) (out : ApiOutcome (Body Task))
                 (stats_out : ApiOutcome (Body TaskStats))
  | OpGetTask (id : string) (out : ApiOutcome (Body Task)).

Definition perform (op : Operation) : M unit :=
  match op with
  | OpCheckAuthStatus out => checkAuthStatus out
  | OpLogin email password out => login email password out;; mret ()
  | OpRegister name email password out => register name email password out;; mret ()
  | OpLogout => logout
  | OpUpdateProfile name email out => updateProfile name email out;; mret ()
  | OpFetchTasks filters out => fetchTasks filters out
  | OpFetchStats out => fetchStats out
  | OpCreateTask taskData out stats_out => createTask taskData out stats_out;; mret ()
  | OpUpdateTask id taskData out stats_out => updateTask id taskData out stats_out;; mret ()
  | OpDeleteTask id out stats_out => deleteTask id out stats_out;; mret ()
  | OpGetTask id out => getTask id out;; mret ()
  end.

(** The world after a sequence of operations, each awaited before the next. *)
Definition perform_all (ops : list Operation) (w : World) : World :=
  foldl (λ w op, exec (perform op) w) w ops.

(** The text of the error toast for a failed request: the server's message
    when it has one, the operation's own otherwise. *)
Definition failure_text {B} (msg : B → option string) (out : ApiOutcome B)
    (fallback : string) : string :=
  match out with
  | Resolve b => or_else (msg b) fallback
  | Reject e => or_else (error_message e) fallback
  end.

(** The identifiers of the held tasks. *)
Definition ids (l : list Task) : list string := map _id l.

(** ** Calls answered with an error *)

(** The manager operations that send an authenticated request. *)
Inductive AuthenticatedCall :=
  | CheckAuthStatus
  | UpdateProfile (name email : option string)
  | FetchTasks (filters : option Filters)
  | FetchStats
  | CreateTask (taskData : TaskData)
  | UpdateTask (id : string) (taskData : TaskData)
  | DeleteTask (id : string)
  | GetTask (id : string).

(** The operation run against a server that rejects its request with [e]. *)
Definition rejected (c : AuthenticatedCall) (e : JsError) : M unit :=
  match c with
  | CheckAuthStatus => checkAuthStatus (Reject e)
  | UpdateProfile name email => updateProfile name email (Reject e);; mret ()
  | FetchTasks filters => fetchTasks filters (Reject e)
  | FetchStats => fetchStats (Reject e)
  | CreateTask taskData => createTask taskData (Reject e) (Reject e);; mret ()
  | UpdateTask id taskData => updateTask id taskData (Reject e) (Reject e);; mret ()
  | DeleteTask id => deleteTask (A := Task) id (Reject e) (Reject e);; mret ()
  | GetTask id => getTask id (Reject e);; mret ()
  end.

Definition unauthorized (e : JsError) : Prop :=
  ∃ r, response e = Some r ∧ err_status r = 401%N.

(** ** Sample data *)

Definition sample_task (i t : string) : Task :=
  mkTask i t None pending medium None None "2024-06-01T08:00:00.000Z"
         "2024-06-01T08:00:00.000Z" None.

Definition sample_world : World :=
  mkWorld (Some "jwt") None false
          [sample_task "a" "Buy milk"; sample_task "b" "Call Sam"; sample_task "a" "Buy milk"]
          None false [] [] [].

(** A held list with distinct identifiers. *)
Definition distinct_world : World :=
  mkWorld (Some "jwt") None false
          [sample_task "a" "Buy milk"; sample_task "b" "Call Sam"; sample_task "c" "Pay rent"]
          None false [] [] [].

Definition no_task_data : TaskData := mkTaskData None None None None None None.

Definition transport_failure : JsError := mkJsError None.

Definition sample_form (confirm : string) : Register.FormData :=
  Register.mkFormData "Ada" "ada@example.org" "secret1" confirm.

(** Noon of 15 June 2024 in a zone five hours behind UTC (17:00 UTC). *)
Definition noon_in_bogota : Date.Clock := Date.mkClock 1718470800000 (-300).

(** The same instant read in a zone three hours ahead of UTC (20:00 local). *)
Definition evening_in_nairobi : Date.Clock := Date.mkClock 1718470800000 180.

(** A task as the server returns it for [rent_form]. *)
Definition rent_task : Task :=
  mkTask "r1" "Pay rent" None pending medium (Some "2024-06-15T00:00:00.000Z") None
         "2024-06-01T08:00:00.000Z" "2024-06-01T08:00:00.000Z" None.

(** Whether the server accepted a task request. *)
Definition accepted {A} (out : ApiOutcome (Body A)) : bool :=
  match out with
  | Resolve b => success b
  | Reject _ => false
  end.

Definition rent_form : TaskForm.FormData :=
  TaskForm.mkFormData "Pay rent" "" pending medium "2024-06-15" "".

(** * Properties *)

(** ** JavaScript values *)

Lemma truthy_true_iff (s : string) : truthy s = true ↔ s ≠ "".
Proof. destruct s; simpl; split; congruence. Qed.

Lemma truthy_false_iff (s : string) : truthy s = false ↔ s = "".
Proof. destruct s; simpl; split; congruence. Qed.

Example urlencode_example :
  URLSearchParams_toString [("status", "in-progress"); ("category", "home & garden")]
  = "status=in-progress&category=home+%26+garden".
Proof. reflexivity. Qed.

Example makeday_example : Date.getTime "2024-03-10" = Some 1710028800000%Z.
Proof. reflexivity. Qed.

Example email_examples :
  email_pattern_test "a@b.c" = true ∧ email_pattern_test "a@b." = false ∧
  email_pattern_test "x y@z.w.k " = true ∧ email_pattern_test "@b.c" = false.
Proof. repeat split; reflexivity. Qed.

(** ** The effect monad and the API client *)

(** Unfolds the monad and the ambient services down to functions on worlds. *)
Ltac unfold_M :=
  cbv [run exec result mbind M_bind mret M_ret modify gets throw try_catch
       try_finally api localStorage_getItem localStorage_setItem
       localStorage_removeItem setUser setAuthLoading setTasks setStats
       setLoading toast_success toast_error console_error clear_session];
  cbn [fst snd].

(** What the interceptor leaves of a world: everything but the session. *)
Lemma response_interceptor_run (e : JsError) (w : World) :
  response_interceptor e w = (Returned (), w) ∨
  response_interceptor e w = (Returned (), set_user None (set_token None w)).
Proof.
  unfold response_interceptor.
  destruct (response e) as [r|]; [|by left].
  destruct (decide (err_status r = 401%N)); [by right|by left].
Qed.

Ltac settle_interceptor :=
  match goal with
  | |- context [response_interceptor ?e ?w0] =>
      let H := fresh "H" in
      destruct (response_interceptor_run e w0) as [H|H]; rewrite H; cbn
  end.

(** The stats refresh touches the stats snapshot, the console and the
    request log at most; it never throws. *)
Lemma fetchStats_run (out : ApiOutcome (Body TaskStats)) (w : World) :
  ∃ w', fetchStats out w = (Returned (), w') ∧ tasks w' = tasks w
        ∧ auth_loading w' = auth_loading w.
Proof.
  unfold fetchStats. unfold_M.
  destruct out as [b|e].
  - destruct (success b); eexists; split_and!; reflexivity.
  - settle_interceptor; eexists; split_and!; reflexivity.
Qed.

Ltac settle_stats :=
  match goal with
  | |- context [fetchStats ?stats_out ?w0] =>
      let w' := fresh "w'" in
      let Hrun := fresh "Hrun" in
      let Htasks := fresh "Htasks" in
      destruct (fetchStats_run stats_out w0) as (w' & Hrun & Htasks & _);
      rewrite Hrun; cbn in *
  end.

(** ** Task collection *)

Lemma filter_twice {A} (P : A → Prop) `{∀ x, Decision (P x)} (l : list A) :
  filter P (filter P l) = filter P l.
Proof.
  induction l as [|x l IH]; [done|].
  destruct (decide (P x)) as [Hx|Hx].
  - rewrite (filter_cons_True P x l Hx), (filter_cons_True P x _ Hx). by f_equal.
  - by rewrite (filter_cons_False P x l Hx).
Qed.

(** C1.  [createTask]: when the server answers with [success] true, the
    record it returns becomes the first element of the held list, in front
    of the previous elements in their order, and the operation returns
    [true]; when it answers with [success] false or the request is
    rejected, the held list is the list held before and the operation
    returns [false]. *)
Theorem createTask_prepends_or_keeps
    (taskData : TaskData) (out : ApiOutcome (Body Task))
    (stats_out : ApiOutcome (Body TaskStats)) (w : World) :
  let w' := exec (createTask taskData out stats_out) w in
  let r := result (createTask taskData out stats_out) w in
  match out with
  | Resolve b =>
      if success b
      then tasks w' = data b :: tasks w ∧ r = Returned true
      else tasks w' = tasks w ∧ r = Returned false
  | Reject _ => tasks w' = tasks w ∧ r = Returned false
  end.
Proof.
  unfold createTask. unfold_M.
  destruct out as [b|e].
  - destruct (success b) eqn:Hs; [|done].
    settle_stats. by rewrite Htasks.
  - settle_interceptor; done.
Qed.

(** C2.  [updateTask]: when the server answers with [success] true, the held
    list keeps its length, every position that held a task with identifier
    [id] now holds the record returned by the server, and every other
    position holds the task it held before. *)
Theorem updateTask_replaces_in_place
    (id : string) (taskData : TaskData) (b : Body Task)
    (stats_out : ApiOutcome (Body TaskStats)) (w : World) :
  success b = true →
  let w' := exec (updateTask id taskData (Resolve b) stats_out) w in
  length (tasks w') = length (tasks w) ∧
  (∀ (i : nat) (task : Task), tasks w !! i = Some task → _id task = id →
     tasks w' !! i = Some (data b)) ∧
  (∀ (i : nat) (task : Task), tasks w !! i = Some task → _id task ≠ id →
     tasks w' !! i = Some task) ∧
  result (updateTask id taskData (Resolve b) stats_out) w = Returned true.
Proof.
  intros Hs. unfold updateTask. unfold_M. rewrite Hs.
  settle_stats. rewrite Htasks. split_and!.
  - by rewrite length_map.
  - intros i task Hi Hid. rewrite list_lookup_fmap, Hi. simpl.
    by rewrite decide_True.
  - intros i task Hi Hid. rewrite list_lookup_fmap, Hi. simpl.
    by rewrite decide_False.
  - done.
Qed.

Lemma updateTask_replaces_in_place_witness :
  let b := mkBody true (sample_task "a" "Buy oat milk") None in
  let w' := exec (updateTask "a" no_task_data (Resolve b) (Reject transport_failure))
                 sample_world in
  success b = true ∧
  length (tasks w') = 3%nat ∧
  (∀ (i : nat) (task : Task), tasks sample_world !! i = Some task → _id task = "a" →
     tasks w' !! i = Some (data b)) ∧
  (∀ (i : nat) (task : Task), tasks sample_world !! i = Some task → _id task ≠ "a" →
     tasks w' !! i = Some task) ∧
  result (updateTask "a" no_task_data (Resolve b) (Reject transport_failure)) sample_world
  = Returned true.
Proof.
  intros b w'. split; [reflexivity|].
  exact (updateTask_replaces_in_place "a" no_task_data b (Reject transport_failure)
           sample_world eq_refl).
Defined.

(** C3.  [deleteTask]: when the server answers with [success] true, the held
    list afterwards has no task with identifier [id]; it is a sublist of
    the list held before (nothing added, order kept), and the tasks with
    another identifier are the same, in the same order, before and after. *)
Theorem deleteTask_removes_matching
    {A} (id : string) (b : Body A)
    (stats_out : ApiOutcome (Body TaskStats)) (w : World) :
  success b = true →
  let w' := exec (deleteTask id (Resolve b) stats_out) w in
  (∀ task, task ∈ tasks w' → _id task ≠ id) ∧
  tasks w' `sublist_of` tasks w ∧
  filter (λ task, _id task ≠ id) (tasks w') = filter (λ task, _id task ≠ id) (tasks w) ∧
  (∀ task, task ∈ tasks w → _id task ≠ id → task ∈ tasks w') ∧
  result (deleteTask id (Resolve b) stats_out) w = Returned true.
Proof.
  intros Hs. unfold deleteTask. unfold_M. rewrite Hs.
  settle_stats. rewrite Htasks. split_and!.
  - intros task Hin. by apply list_elem_of_filter in Hin as [? _].
  - apply sublist_filter.
  - apply filter_twice.
  - intros task Hin Hne. by apply list_elem_of_filter.
  - done.
Qed.

Lemma deleteTask_removes_matching_witness :
  let b := mkBody true () None in
  let w' := exec (deleteTask "a" (Resolve b) (Reject transport_failure)) sample_world in
  success b = true ∧ tasks w' = [sample_task "b" "Call Sam"] ∧
  (∀ task, task ∈ tasks w' → _id task ≠ "a").
Proof.
  intros b w'. split; [reflexivity|]. split; [reflexivity|].
  exact (proj1 (deleteTask_removes_matching "a" b (Reject transport_failure)
                  sample_world eq_refl)).
Defined.

(** C9.  [updateTask] with an identifier that no held task carries: when the
    server answers with [success] true the held list is exactly the list
    held before (the returned record is not added), the operation returns
    [true], and the stats request has been sent. *)
Theorem updateTask_unknown_id_keeps_list
    (id : string) (taskData : TaskData) (b : Body Task)
    (stats_out : ApiOutcome (Body TaskStats)) (w : World) :
  success b = true →
  (∀ task, task ∈ tasks w → _id task ≠ id) →
  let w' := exec (updateTask id taskData (Resolve b) stats_out) w in
  tasks w' = tasks w ∧
  result (updateTask id taskData (Resolve b) stats_out) w = Returned true ∧
  requests w' =
    (requests w ++ [mkRequest PUT ("/tasks/" ++ id) (TaskPayload taskData) (token w);
                    mkRequest GET "/tasks/stats" NoPayload (token w)])%list ∧
  stats w' = match stats_out with
             | Resolve sb => if success sb then Some (data sb) else stats w
             | Reject _ => stats w
             end.
Proof.
  intros Hs Hfresh. unfold updateTask, fetchStats. unfold_M. rewrite Hs.
  assert (Hmap : map (λ task, if decide (_id task = id) then data b else task) (tasks w)
                 = tasks w).
  { induction (tasks w) as [|t l IH]; [done|]. simpl.
    rewrite decide_False by (apply Hfresh; left).
    f_equal. apply IH. intros task Hin. apply Hfresh. by right. }
  destruct stats_out as [sb|e].
  - destruct (success sb); cbn; rewrite Hmap, <- app_assoc; done.
  - settle_interceptor; rewrite Hmap, <- app_assoc; done.
Qed.

Lemma updateTask_unknown_id_keeps_list_witness :
  let b := mkBody true (sample_task "zz" "Stranger") None in
  let w' := exec (updateTask "zz" no_task_data (Resolve b) (Reject transport_failure))
                 sample_world in
  success b = true ∧ (∀ task, task ∈ tasks sample_world → _id task ≠ "zz") ∧
  tasks w' = tasks sample_world.
Proof.
  intros b w'.
  assert (Hfresh : ∀ task, task ∈ tasks sample_world → _id task ≠ "zz").
  { intros task Hin. cbn in Hin. set_unfold in Hin.
    destruct Hin as [->|[->|[->|[]]]]; discriminate. }
  split; [reflexivity|]. split; [exact Hfresh|].
  exact (proj1 (updateTask_unknown_id_keeps_list "zz" no_task_data b
                  (Reject transport_failure) sample_world eq_refl Hfresh)).
Defined.

(** *** The query of [fetchTasks] *)

Lemma query_params_omap (o : Filters) :
  query_params (Some o) = omap (forwarded o) (Object_keys o).
Proof.
  unfold query_params.
  enough (Hgen : ∀ keys acc,
    foldl (λ params key,
             match get_property key o with
             | Some v => if truthy v then (params ++ [(key, v)])%list else params
             | None => params
             end) acc keys = (acc ++ omap (forwarded o) keys)%list)
    by apply (Hgen _ []).
  induction keys as [|k keys IH]; intros acc; simpl.
  - by rewrite app_nil_r.
  - rewrite IH. unfold forwarded at 2.
    destruct (get_property k o) as [v|]; [|done].
    destruct (truthy v); [|done]. by rewrite <- app_assoc.
Qed.

Lemma get_property_elem_of (o : Filters) (key : string) :
  key ∈ Object_keys o → (key, get_property key o) ∈ o.
Proof.
  induction o as [|[k v] o IH]; simpl; intros Hin.
  - by apply elem_of_nil in Hin.
  - destruct (decide (k = key)) as [->|Hne]; [left|].
    apply elem_of_cons in Hin as [Heq|Hin]; [congruence|].
    right. by apply IH.
Qed.

Lemma get_property_NoDup (o : Filters) (key : string) (v : option string) :
  NoDup (Object_keys o) → (key, v) ∈ o → get_property key o = v.
Proof.
  induction o as [|[k v'] o IH]; simpl; intros Hnd Hin.
  - by apply elem_of_nil in Hin.
  - apply NoDup_cons in Hnd as [Hk Hnd].
    apply elem_of_cons in Hin as [Heq|Hin].
    + injection Heq as -> ->. by rewrite decide_True.
    + destruct (decide (k = key)) as [->|Hne]; [|by apply IH].
      exfalso. apply Hk. unfold Object_keys.
      apply list_elem_of_fmap. by exists (key, v).
Qed.

Lemma forwarded_keys_sublist (o : Filters) (keys : list string) :
  map fst (omap (forwarded o) keys) `sublist_of` keys.
Proof.
  induction keys as [|k keys IH]; simpl; [constructor|].
  unfold forwarded at 1.
  destruct (get_property k o) as [v|]; [destruct (truthy v)|]; simpl;
    by constructor.
Qed.

(** C4.  [fetchTasks]: the pairs appended to the query are exactly the
    entries of the filters object whose value is a non-empty string, in
    the order of the object's keys; the request goes to [/tasks?] followed
    by their serialization; when the server answers with [success] true the
    held list becomes the response data, whatever list was held before. *)
Theorem fetchTasks_query_and_replace
    (filters : option Filters) (out : ApiOutcome (Body (list Task))) (w : World) :
  well_formed_filters filters →
  let params := query_params filters in
  let w' := exec (fetchTasks filters out) w in
  (∀ key v, (key, v) ∈ params ↔ (key, Some v) ∈ entries filters ∧ v ≠ "") ∧
  map fst params `sublist_of` Object_keys (entries filters) ∧
  requests w' =
    (requests w ++
     [mkRequest GET ("/tasks?" ++ URLSearchParams_toString params) NoPayload (token w)])%list ∧
  (∀ b, out = Resolve b → success b = true → tasks w' = data b) ∧
  result (fetchTasks filters out) w = Returned ().
Proof.
  intros Hwf params w'. split_and!.
  - intros key v. subst params. destruct filters as [o|]; cbn [entries].
    + destruct Hwf as [Hnd _]. rewrite query_params_omap, list_elem_of_omap. split.
      * intros (k & Hk & Hfw). unfold forwarded in Hfw.
        pose proof (get_property_elem_of o k Hk) as Hin.
        destruct (get_property k o) as [v'|]; [|done].
        destruct (truthy v') eqn:Ht; [|done].
        injection Hfw as -> ->. split; [done|]. by apply truthy_true_iff.
      * intros [Hin Hne]. exists key. split.
        -- unfold Object_keys. apply list_elem_of_fmap. by exists (key, Some v).
        -- unfold forwarded. rewrite (get_property_NoDup o key (Some v) Hnd Hin).
           apply truthy_true_iff in Hne. by rewrite Hne.
    + split; [by intros ?%elem_of_nil|by intros [?%elem_of_nil _]].
  - subst params. destruct filters as [o|]; cbn [entries]; [|constructor].
    rewrite query_params_omap. apply forwarded_keys_sublist.
  - subst w'. unfold fetchTasks. unfold_M. fold params.
    destruct out as [b|e].
    + by destruct (success b).
    + settle_interceptor; done.
  - intros b -> Hs. subst w'. unfold fetchTasks. unfold_M. by rewrite Hs.
  - unfold fetchTasks. unfold_M.
    destruct out as [b|e].
    + by destruct (success b).
    + settle_interceptor; done.
Qed.

Lemma fetchTasks_query_and_replace_witness :
  let filters := Some [("status", Some "completed"); ("priority", Some "");
                       ("category", None)] in
  let out := Resolve (mkBody true [sample_task "c" "Done"] None) in
  let w' := exec (fetchTasks filters out) sample_world in
  well_formed_filters filters ∧
  query_params filters = [("status", "completed")] ∧
  requests w' = [mkRequest GET "/tasks?status=completed" NoPayload (Some "jwt")] ∧
  tasks w' = [sample_task "c" "Done"] ∧
  map fst (query_params filters) `sublist_of` Object_keys (entries filters).
Proof.
  intros filters out w'.
  assert (Hwf : well_formed_filters filters).
  { split.
    - cbn. repeat (apply NoDup_cons; split; [set_unfold; intuition discriminate|]).
      apply NoDup_nil_2.
    - cbn. repeat (apply Forall_cons; split; [set_unfold; tauto|]). apply Forall_nil_2. }
  split; [exact Hwf|]. split; [reflexivity|]. split; [reflexivity|].
  split; [reflexivity|].
  exact (proj1 (proj2 (fetchTasks_query_and_replace filters out sample_world Hwf))).
Defined.

(** Every filter state of the task page yields a well-formed filters object,
    holding exactly its non-empty fields. *)
Lemma queryParams_well_formed (filters : FilterState) :
  well_formed_filters (Some (queryParams filters)).
Proof.
  unfold queryParams; destruct filters as [s p c]; cbn.
  destruct (truthy s), (truthy p), (truthy c); cbn; split;
    repeat first
      [ apply NoDup_nil_2 | apply Forall_nil_2
      | apply NoDup_cons; split; [set_unfold; intuition discriminate|]
      | apply Forall_cons; split; [set_unfold; tauto|] ].
Qed.

Lemma handleFilterChange_query (filters : FilterState) :
  query_params (Some (queryParams filters)) =
  ((if truthy (filter_status filters) then [("status", filter_status filters)] else []) ++
   (if truthy (filter_priority filters) then [("priority", filter_priority filters)] else []) ++
   (if truthy (filter_category filters) then [("category", filter_category filters)] else []))%list.
Proof.
  destruct filters as [[|? ?] [|? ?] [|? ?]]; vm_compute; reflexivity.
Qed.

(** ** No operation throws *)

(** C5.  Each public manager operation completes normally from every world,
    for every input and every way the server settles the request, and when
    the request fails (rejected, or answered with [success] false) the value
    returned is [false], or [null] for [getTask]. *)
Theorem manager_operations_never_throw :
  (∀ email password out w,
     ∃ ok, result (login email password out) w = Returned ok ∧
           (auth_failed out → ok = false)) ∧
  (∀ name email password out w,
     ∃ ok, result (register name email password out) w = Returned ok ∧
           (auth_failed out → ok = false)) ∧
  (∀ name email out w,
     ∃ ok, result (updateProfile name email out) w = Returned ok ∧
           (auth_failed out → ok = false)) ∧
  (∀ taskData out stats_out w,
     ∃ ok, result (createTask taskData out stats_out) w = Returned ok ∧
           (failed out → ok = false)) ∧
  (∀ id taskData out stats_out w,
     ∃ ok, result (updateTask id taskData out stats_out) w = Returned ok ∧
           (failed out → ok = false)) ∧
  (∀ (A : Type) id (out : ApiOutcome (Body A)) stats_out w,
     ∃ ok, result (deleteTask id out stats_out) w = Returned ok ∧
           (failed out → ok = false)) ∧
  (∀ id out w,
     ∃ found, result (getTask id out) w = Returned found ∧
              (failed out → found = None)).
Proof.
  split_and!; intros.
  - unfold login. unfold_M. destruct out as [b|e]; simpl.
    + destruct (auth_success b); eexists; split; done.
    + settle_interceptor; eexists; done.
  - unfold register. unfold_M. destruct out as [b|e]; simpl.
    + destruct (auth_success b); eexists; split; done.
    + settle_interceptor; eexists; done.
  - unfold updateProfile. unfold_M. destruct out as [b|e]; simpl.
    + destruct (auth_success b); eexists; split; done.
    + settle_interceptor; eexists; done.
  - unfold createTask. unfold_M. destruct out as [b|e]; simpl.
    + destruct (success b); [settle_stats|]; eexists; split; done.
    + settle_interceptor; eexists; done.
  - unfold updateTask. unfold_M. destruct out as [b|e]; simpl.
    + destruct (success b); [settle_stats|]; eexists; split; done.
    + settle_interceptor; eexists; done.
  - unfold deleteTask. unfold_M. destruct out as [b|e]; simpl.
    + destruct (success b); [settle_stats|]; eexists; split; done.
    + settle_interceptor; eexists; done.
  - unfold getTask. unfold_M. destruct out as [b|e]; simpl.
    + destruct (success b); eexists; split; done.
    + settle_interceptor; eexists; done.
Qed.

(** ** Session restoration *)

(** C6.  [checkAuthStatus] on a world whose storage holds a token and whose
    user is still [null]: the current user is requested with that token;
    when the request is rejected or answered with [success] false, the
    stored token is removed and the user stays [null]; when it is answered
    with [success] true, the returned user becomes the session user and the
    token stays in storage.  Either way loading ends and nothing is thrown. *)
Theorem checkAuthStatus_restores_or_clears
    (stored : string) (out : ApiOutcome AuthBody) (w : World) :
  token w = Some stored →
  truthy stored = true →
  user w = None →
  let w' := exec (checkAuthStatus out) w in
  requests w' = (requests w ++ [mkRequest GET "/auth/me" NoPayload (Some stored)])%list ∧
  (auth_failed out → token w' = None ∧ user w' = None) ∧
  (∀ b, out = Resolve b → auth_success b = true →
        user w' = auth_user b ∧ token w' = Some stored) ∧
  auth_loading w' = false ∧
  result (checkAuthStatus out) w = Returned ().
Proof.
  intros Htok Htruthy Huser. unfold checkAuthStatus. unfold_M.
  rewrite Htok. cbn. rewrite Htruthy. cbn.
  destruct out as [b|e]; cbn.
  - destruct (auth_success b) eqn:Hs; cbn; rewrite ?Htok; split_and!; try done.
    + intros b' [= <-] _. done.
    + intros b' [= <-] Hs'. congruence.
  - settle_interceptor; rewrite ?Htok; split_and!; done.
Qed.

Lemma checkAuthStatus_restores_or_clears_witness :
  let w := initial_world (Some "jwt") in
  let u := mkUser "u1" "Ada" "ada@example.org" "user" "2024-01-01T00:00:00.000Z" None in
  let ok := Resolve (mkAuthBody true None (Some u) None) in
  let expired := Reject (mkJsError (Some (mkErrorResponse 401 (Some "Token expired")))) in
  token w = Some "jwt" ∧ truthy "jwt" = true ∧ user w = None ∧
  (user (exec (checkAuthStatus ok) w) = Some u ∧
   token (exec (checkAuthStatus ok) w) = Some "jwt") ∧
  (token (exec (checkAuthStatus expired) w) = None ∧
   user (exec (checkAuthStatus expired) w) = None).
Proof.
  intros w u ok expired.
  do 3 (split; [reflexivity|]). split.
  - pose proof (checkAuthStatus_restores_or_clears "jwt" ok w eq_refl eq_refl eq_refl)
      as (_ & _ & Hok & _).
    exact (Hok _ eq_refl eq_refl).
  - pose proof (checkAuthStatus_restores_or_clears "jwt" expired w eq_refl eq_refl eq_refl)
      as (_ & Hfail & _).
    exact (Hfail I).
Defined.

(** ** Unauthorized responses *)

Lemma response_interceptor_unauthorized (e : JsError) (w : World) :
  unauthorized e →
  response_interceptor e w = (Returned (), set_user None (set_token None w)).
Proof.
  intros (r & Hr & Hst). unfold response_interceptor. rewrite Hr.
  by rewrite decide_True.
Qed.

(** C8.  An authenticated request (a token is in storage when it is sent)
    answered with status 401: the interceptor itself removes token and
    user, and once the operation that sent the request has run to its end, the stored token and the session user are both gone, a
    protected view does not render its children, and it redirects to
    [/login] as soon as the initial loading is over, which it is for the
    session check itself and for every call made from a rendered view. *)
Theorem unauthorized_response_clears_session
    (c : AuthenticatedCall) (e : JsError) (w : World) :
  truthy_opt (token w) = true →
  unauthorized e →
  let w' := exec (rejected c e) w in
  (∀ w0, token (exec (response_interceptor e) w0) = None ∧
         user (exec (response_interceptor e) w0) = None) ∧
  token w' = None ∧ user w' = None ∧
  ProtectedRoute w' ≠ Children ∧
  (c = CheckAuthStatus ∨ auth_loading w = false →
   ProtectedRoute w' = Navigate "/login").
Proof.
  intros Htok Hun. split.
  { intros w0. unfold exec. by rewrite (response_interceptor_unauthorized e w0 Hun). }
  assert (Hclear : ∀ w0, response_interceptor e w0
                         = (Returned (), set_user None (set_token None w0)))
    by (intros; by apply response_interceptor_unauthorized).
  unfold ProtectedRoute.
  destruct c; cbn [rejected];
    unfold checkAuthStatus, updateProfile, fetchTasks, fetchStats, createTask,
      updateTask, deleteTask, getTask;
    unfold_M; rewrite ?Htok; cbn; rewrite Hclear; cbn;
    (split_and!; [done|done|by destruct (auth_loading w)|]);
    intros [Hc|Hl]; try discriminate Hc; try rewrite Hl; done.
Qed.

Lemma unauthorized_response_clears_session_witness :
  let u := mkUser "u1" "Ada" "ada@example.org" "user" "2024-01-01T00:00:00.000Z" None in
  let w := mkWorld (Some "jwt") (Some u) false [sample_task "a" "Buy milk"] None false
                   [] [] [] in
  let e := mkJsError (Some (mkErrorResponse 401 (Some "Not authorized"))) in
  let w' := exec (rejected (DeleteTask "a") e) w in
  truthy_opt (token w) = true ∧ unauthorized e ∧ ProtectedRoute w = Children ∧
  token w' = None ∧ user w' = None ∧ ProtectedRoute w' = Navigate "/login".
Proof.
  intros u w e w'.
  assert (Hun : unauthorized e) by (eexists; split; reflexivity).
  pose proof (unauthorized_response_clears_session (DeleteTask "a") e w eq_refl Hun)
    as (_ & Ht & Hu & _ & Hnav).
  split_and!; [reflexivity|exact Hun|reflexivity|exact Ht|exact Hu|].
  apply Hnav. by right.
Defined.

(** ** Registration *)

(** C10.  A registration form that passes validation has its confirmation
    equal to its password, and submitting it sends exactly one request,
    [POST /auth/register] with the name, e-mail and password fields; two
    valid forms that agree on these three fields therefore send the same
    request: the confirmation field is not part of it. *)
Theorem register_request_omits_confirmPassword
    (st st' : Register.State) (out : ApiOutcome AuthBody) (w : World) :
  (Register.validateForm st).2 = true →
  (Register.validateForm st').2 = true →
  Register.name (Register.formData st) = Register.name (Register.formData st') →
  Register.email (Register.formData st) = Register.email (Register.formData st') →
  Register.password (Register.formData st) = Register.password (Register.formData st') →
  requests (exec (Register.handleSubmit st out) w) =
    (requests w ++
     [mkRequest POST "/auth/register"
        (RegisterPayload (Register.name (Register.formData st))
                         (Register.email (Register.formData st))
                         (Register.password (Register.formData st)))
        (token w)])%list ∧
  requests (exec (Register.handleSubmit st out) w) =
  requests (exec (Register.handleSubmit st' out) w) ∧
  Register.confirmPassword (Register.formData st) = Register.password (Register.formData st).
Proof.
  assert (Hsent : ∀ s : Register.State, (Register.validateForm s).2 = true →
    requests (exec (Register.handleSubmit s out) w) =
    (requests w ++
     [mkRequest POST "/auth/register"
        (RegisterPayload (Register.name (Register.formData s))
                         (Register.email (Register.formData s))
                         (Register.password (Register.formData s)))
        (token w)])%list).
  { intros s Hv. unfold Register.handleSubmit.
    destruct (Register.validateForm s) as [s1 valid] eqn:Hvf. cbn in Hv. subst valid.
    assert (Hfd : Register.formData s1 = Register.formData s).
    { unfold Register.validateForm in Hvf. by injection Hvf as <- _. }
    cbn [negb]. unfold register. unfold_M. cbn. rewrite Hfd.
    destruct out as [b|e]; cbn.
    - by destruct (auth_success b).
    - settle_interceptor; done. }
  intros Hv Hv' Hn He Hp. split_and!.
  - by apply Hsent.
  - rewrite (Hsent st Hv), (Hsent st' Hv'). by rewrite Hn, He, Hp.
  - unfold Register.validateForm in Hv. cbn in Hv.
    apply bool_decide_eq_true in Hv.
    apply map_size_empty_iff in Hv.
    unfold Register.newErrors in Hv.
    destruct (negb (truthy (Register.confirmPassword (Register.formData st)))).
    { by apply insert_non_empty in Hv. }
    destruct (bool_decide (Register.password (Register.formData st) ≠
                           Register.confirmPassword (Register.formData st))) eqn:Hd.
    { by apply insert_non_empty in Hv. }
    apply bool_decide_eq_false in Hd. by destruct (decide
      (Register.confirmPassword (Register.formData st) = Register.password (Register.formData st)));
      [|exfalso; apply Hd; congruence].
Qed.

Lemma register_request_omits_confirmPassword_witness :
  let st := Register.mkState (sample_form "secret1") false ∅ in
  let st' := Register.mkState (sample_form "secret1") false
               {["confirmPassword" := "Passwords do not match"]} in
  let out := Reject transport_failure in
  (Register.validateForm st).2 = true ∧ (Register.validateForm st').2 = true ∧
  requests (exec (Register.handleSubmit st out) sample_world) =
    [mkRequest POST "/auth/register" (RegisterPayload "Ada" "ada@example.org" "secret1")
               (Some "jwt")] ∧
  requests (exec (Register.handleSubmit st out) sample_world) =
  requests (exec (Register.handleSubmit st' out) sample_world).
Proof.
  intros st st' out.
  pose proof (register_request_omits_confirmPassword st st' out sample_world
                eq_refl eq_refl eq_refl eq_refl eq_refl) as (Hreq & Hsame & _).
  split_and!; [reflexivity|reflexivity|exact Hreq|exact Hsame].
Defined.

(** A form that fails validation sends nothing, whatever its fields. *)
Lemma register_invalid_sends_nothing
    (st : Register.State) (out : ApiOutcome AuthBody) (w : World) :
  (Register.validateForm st).2 = false →
  exec (Register.handleSubmit st out) w = w.
Proof.
  intros Hv. unfold Register.handleSubmit.
  destruct (Register.validateForm st) as [s1 valid]. cbn in Hv. by subst valid.
Qed.

Example register_mismatch_rejected :
  (Register.validateForm (Register.mkState (sample_form "secret2") false ∅)).2 = false.
Proof. reflexivity. Qed.

(** ** Due dates *)

Section DueDate.

Local Open Scope Z_scope.

Variable clk : Date.Clock.

(** The [dueDate] error is set exactly when the due-date test fires. *)
Lemma newErrors_dueDate (formData : TaskForm.FormData) :
  TaskForm.newErrors clk formData !! "dueDate" =
  if TaskForm.due_date_in_past clk (TaskForm.dueDate formData)
  then Some "Due date cannot be in the past" else None.
Proof.
  unfold TaskForm.newErrors.
  destruct (TaskForm.due_date_in_past clk (TaskForm.dueDate formData)).
  - by rewrite lookup_insert_eq.
  - repeat match goal with
           | |- context [if ?c then _ else _] => destruct c
           end;
      repeat (rewrite lookup_insert_ne by discriminate); apply lookup_empty.
Qed.

Lemma day_of_truthy (s : string) (d : Z) : Date.day_of s = Some d → truthy s = true.
Proof. destruct s; [discriminate|done]. Qed.

(** The test compares the UTC midnight of the named day with the local
    midnight of the current day. *)
Lemma due_date_in_past_days (s : string) (d : Z) :
  Date.day_of s = Some d →
  TaskForm.due_date_in_past clk s =
  (d * Date.msPerDay + Date.LocalTZA clk <? Date.today clk * Date.msPerDay).
Proof.
  intros Hd. unfold TaskForm.due_date_in_past.
  rewrite (day_of_truthy s d Hd). cbn [andb].
  unfold Date.day_of in Hd. unfold Date.getTime.
  destruct (Date.parse_date_only s) as [[[y m] dd]|]; [|discriminate].
  cbn in Hd |- *. injection Hd as <-.
  unfold Date.setHours_0, Date.today.
  match goal with
  | |- (?a <? ?b) = (?c <? ?d) =>
      destruct (Z.ltb_spec a b), (Z.ltb_spec c d); [done|lia|lia|done]
  end.
Qed.

(** With local time less than a day away from UTC, a day before the current
    local day is always reported. *)
Lemma earlier_day_reported (s : string) (d : Z) :
  -1440 < Date.utc_offset_minutes clk < 1440 →
  Date.day_of s = Some d → d < Date.today clk →
  TaskForm.due_date_in_past clk s = true.
Proof.
  intros Hoff Hd Hlt. rewrite (due_date_in_past_days s d Hd).
  apply Z.ltb_lt. unfold Date.LocalTZA, Date.msPerDay, Date.msPerMinute. lia.
Qed.

(** The current local day is reported exactly when local time is behind
    UTC. *)
Lemma current_day_reported_iff (s : string) :
  Date.day_of s = Some (Date.today clk) →
  TaskForm.due_date_in_past clk s = true ↔ Date.utc_offset_minutes clk < 0.
Proof.
  intros Hd. rewrite (due_date_in_past_days s _ Hd), Z.ltb_lt.
  unfold Date.LocalTZA, Date.msPerMinute. lia.
Qed.

End DueDate.

(** The time of day plays no part: two instants of the same local day, in
    the same zone, give the same verdict. *)
Lemma due_date_ignores_time_of_day (clk clk' : Date.Clock) (s : string) :
  Date.utc_offset_minutes clk = Date.utc_offset_minutes clk' →
  Date.today clk = Date.today clk' →
  TaskForm.due_date_in_past clk s = TaskForm.due_date_in_past clk' s.
Proof.
  intros Hoff Hday. unfold TaskForm.due_date_in_past. f_equal. f_equal.
  change (Date.today clk * Date.msPerDay - Date.LocalTZA clk =
          Date.today clk' * Date.msPerDay - Date.LocalTZA clk')%Z.
  unfold Date.LocalTZA. by rewrite Hoff, Hday.
Qed.

(** C7.  Behind UTC the due-date test is not at day granularity: at noon of
    15 June 2024, five hours behind UTC, a task due on 15 June 2024 (the
    current local day) is reported as "Due date cannot be in the past" and
    the form is rejected; three hours ahead of UTC the same form passes. *)
Theorem validateForm_reports_current_day_behind_utc :
  Date.day_of (TaskForm.dueDate rent_form) = Some (Date.today noon_in_bogota) ∧
  TaskForm.validateForm noon_in_bogota rent_form =
    ({["dueDate" := "Due date cannot be in the past"]}, false) ∧
  Date.day_of (TaskForm.dueDate rent_form) = Some (Date.today evening_in_nairobi) ∧
  TaskForm.validateForm evening_in_nairobi rent_form = (∅, true).
Proof. split_and!; reflexivity. Qed.

(** * Further properties of the managers and pages *)

(** ** Route guards and the session *)

Ltac unfold_ops :=
  unfold checkAuthStatus, login, register, logout, updateProfile, fetchTasks,
    fetchStats, createTask, updateTask, deleteTask, getTask.

(** X1.  The two route guards never both render their children, and a
    redirect issued by one lands on a route whose guard renders its
    children: [/login] is public and [/dashboard] is protected, so there is
    no redirect loop. *)
Theorem route_guards_exclusive (w : World) :
  ¬ (ProtectedRoute w = Children ∧ PublicRoute w = Children) ∧
  (∀ to, ProtectedRoute w = Navigate to → to = "/login" ∧ PublicRoute w = Children) ∧
  (∀ to, PublicRoute w = Navigate to → to = "/dashboard" ∧ ProtectedRoute w = Children) ∧
  (ProtectedRoute w = LoadingSpinner ↔ PublicRoute w = LoadingSpinner).
Proof.
  unfold ProtectedRoute, PublicRoute.
  destruct (auth_loading w), (user w); split_and!.
  all: try (intros [? ?]; congruence).
  all: try (intros to ?; split; congruence).
  all: try (split; congruence).
Qed.

(** X2.  [logout] from any world: the stored token and the session user are
    gone, one success notification is shown, no request is sent, and a
    protected view no longer renders its children. *)
Theorem logout_ends_session (w : World) :
  let w' := exec logout w in
  token w' = None ∧ user w' = None ∧
  requests w' = requests w ∧
  toasts w' = (toasts w ++ [ToastSuccess "Logged out successfully"])%list ∧
  ProtectedRoute w' ≠ Children ∧
  (auth_loading w = false → ProtectedRoute w' = Navigate "/login" ∧ PublicRoute w' = Children) ∧
  result logout w = Returned ().
Proof.
  unfold logout, ProtectedRoute, PublicRoute. unfold_M. cbn.
  split_and!; try done.
  - destruct (auth_loading w); congruence.
  - by intros ->.
Qed.

(** X3.  A successful [login] or [register] whose response carries a user:
    the token of the response is stored, the user becomes the session
    user, exactly one request is sent with the credentials as they were
    given, and once loading is over the protected views render while the
    public ones redirect to [/dashboard]. *)
Theorem login_register_open_session
    (name email password : string) (b : AuthBody) (u : User) (w : World) :
  auth_success b = true →
  auth_user b = Some u →
  auth_loading w = false →
  let w1 := exec (login email password (Resolve b)) w in
  let w2 := exec (register name email password (Resolve b)) w in
  (token w1 = Some (to_js_string (auth_token b)) ∧ user w1 = Some u ∧
   requests w1 = (requests w ++ [mkRequest POST "/auth/login"
                                  (LoginPayload email password) (token w)])%list ∧
   ProtectedRoute w1 = Children ∧ PublicRoute w1 = Navigate "/dashboard" ∧
   result (login email password (Resolve b)) w = Returned true) ∧
  (token w2 = Some (to_js_string (auth_token b)) ∧ user w2 = Some u ∧
   requests w2 = (requests w ++ [mkRequest POST "/auth/register"
                                  (RegisterPayload name email password) (token w)])%list ∧
   ProtectedRoute w2 = Children ∧ PublicRoute w2 = Navigate "/dashboard" ∧
   result (register name email password (Resolve b)) w = Returned true).
Proof.
  intros Hs Hu Hl. unfold login, register, ProtectedRoute, PublicRoute. unfold_M.
  rewrite Hs. cbn. rewrite Hu, Hl. done.
Qed.

Lemma login_register_open_session_witness :
  let u := mkUser "u1" "Ada" "ada@example.org" "user" "2024-01-01T00:00:00.000Z" None in
  let b := mkAuthBody true (Some "jwt-2") (Some u) None in
  let w := set_auth_loading false (initial_world None) in
  auth_success b = true ∧ auth_user b = Some u ∧ auth_loading w = false ∧
  token (exec (login "ada@example.org" "secret1" (Resolve b)) w) = Some "jwt-2" ∧
  ProtectedRoute (exec (register "Ada" "ada@example.org" "secret1" (Resolve b)) w) = Children.
Proof.
  intros u b w.
  pose proof (login_register_open_session "Ada" "ada@example.org" "secret1" b u w
                eq_refl eq_refl eq_refl) as [(Ht & _) (_ & _ & _ & Hp & _)].
  split_and!; [reflexivity|reflexivity|reflexivity|exact Ht|exact Hp].
Defined.

(** X4.  [checkAuthStatus] without a usable token (no item, or the empty
    string): no request is sent and nothing changes except that loading
    ends; an empty-string item stays in storage. *)
Theorem checkAuthStatus_without_token (out : ApiOutcome AuthBody) (w : World) :
  truthy_opt (token w) = false →
  exec (checkAuthStatus out) w = set_auth_loading false w ∧
  result (checkAuthStatus out) w = Returned ().
Proof.
  intros Hno. unfold checkAuthStatus. unfold_M. rewrite Hno. cbn.
  by destruct w.
Qed.

Lemma checkAuthStatus_without_token_witness :
  let w := initial_world (Some "") in
  truthy_opt (token w) = false ∧
  exec (checkAuthStatus (Reject transport_failure)) w = set_auth_loading false w ∧
  token (exec (checkAuthStatus (Reject transport_failure)) w) = Some "".
Proof.
  intros w.
  pose proof (checkAuthStatus_without_token (Reject transport_failure) w eq_refl)
    as [Hw _].
  split_and!; [reflexivity|exact Hw|by rewrite Hw].
Defined.

(** ** Failure paths of the managers *)

(** Everything [fetchStats] does to a world. *)
Lemma fetchStats_frame (out : ApiOutcome (Body TaskStats)) (w : World) :
  ∃ w', fetchStats out w = (Returned (), w') ∧
        tasks w' = tasks w ∧ loading w' = loading w ∧
        auth_loading w' = auth_loading w ∧ toasts w' = toasts w ∧
        requests w' = (requests w ++ [mkRequest GET "/tasks/stats" NoPayload (token w)])%list ∧
        console w `prefix_of` console w' ∧
        stats w' = match out with
                   | Resolve sb => if success sb then Some (data sb) else stats w
                   | Reject _ => stats w
                   end.
Proof.
  unfold fetchStats. unfold_M.
  destruct out as [b|e].
  - destruct (success b); eexists; split_and!; reflexivity.
  - settle_interceptor; eexists; split_and!; try reflexivity;
      by apply prefix_app_r.
Qed.

Ltac settle_stats_frame :=
  match goal with
  | |- context [fetchStats ?stats_out ?w0] =>
      let w' := fresh "w'" in
      let Hrun := fresh "Hrun" in
      destruct (fetchStats_frame stats_out w0)
        as (w' & Hrun & ?Htasks & ?Hloading & ?Hauth & ?Htoasts & ?Hreqs & ?Hcons & ?Hstats);
      rewrite Hrun; cbn in *
  end.

(** X5.  [fetchStats]: the snapshot is replaced when the server answers with
    [success] true and kept otherwise; the refresh is silent (no toast), it
    touches neither the held list nor the loading flag, and it never
    throws. *)
Theorem fetchStats_replaces_snapshot_silently
    (out : ApiOutcome (Body TaskStats)) (w : World) :
  let w' := exec (fetchStats out) w in
  stats w' = match out with
             | Resolve sb => if success sb then Some (data sb) else stats w
             | Reject _ => stats w
             end ∧
  toasts w' = toasts w ∧ tasks w' = tasks w ∧ loading w' = loading w ∧
  requests w' = (requests w ++ [mkRequest GET "/tasks/stats" NoPayload (token w)])%list ∧
  result (fetchStats out) w = Returned ().
Proof.
  destruct (fetchStats_frame out w) as (w' & Hrun & ? & ? & ? & ? & ? & ? & ?).
  unfold exec, result. rewrite Hrun. cbn. done.
Qed.

(** X6.  [fetchTasks] always ends with loading off and never throws.  A
    rejected request keeps the held list and shows one error toast; an
    answer with [success] false keeps the held list and shows nothing; the
    stats snapshot is never touched. *)
Theorem fetchTasks_failure_paths
    (filters : option Filters) (out : ApiOutcome (Body (list Task))) (w : World) :
  let w' := exec (fetchTasks filters out) w in
  loading w' = false ∧ stats w' = stats w ∧
  result (fetchTasks filters out) w = Returned () ∧
  match out with
  | Resolve b =>
      toasts w' = toasts w ∧ console w' = console w ∧
      tasks w' = if success b then data b else tasks w
  | Reject _ =>
      tasks w' = tasks w ∧
      toasts w' = (toasts w ++ [ToastError "Failed to fetch tasks"])%list ∧
      console w' = (console w ++ ["Fetch tasks error:"])%list
  end.
Proof.
  unfold fetchTasks. unfold_M.
  destruct out as [b|e].
  - by destruct (success b).
  - settle_interceptor; done.
Qed.

(** X7.  [getTask] only reads: the held list, the stats snapshot, the
    loading flag and the toasts are as before, one request is sent to
    [/tasks/<id>], and the record is returned exactly when the server
    answers with [success] true. *)
Theorem getTask_reads_only (id : string) (out : ApiOutcome (Body Task)) (w : World) :
  let w' := exec (getTask id out) w in
  tasks w' = tasks w ∧ stats w' = stats w ∧ loading w' = loading w ∧
  toasts w' = toasts w ∧
  requests w' = (requests w ++ [mkRequest GET ("/tasks/" ++ id) NoPayload (token w)])%list ∧
  result (getTask id out) w =
    Returned match out with
             | Resolve b => if success b then Some (data b) else None
             | Reject _ => None
             end.
Proof.
  unfold getTask. unfold_M.
  destruct out as [b|e].
  - by destruct (success b).
  - settle_interceptor; done.
Qed.

(** X8.  A failed [createTask], [updateTask] or [deleteTask] (request
    rejected, or answered with [success] false): the held list and the
    stats snapshot are as before, no stats refresh is requested, [false] is
    returned, and exactly one error toast is shown, carrying the server's
    message when it is non-empty and the operation's own text otherwise. *)
Theorem task_mutations_failure_paths
    (id : string) (taskData : TaskData) (out : ApiOutcome (Body Task))
    (stats_out : ApiOutcome (Body TaskStats)) (w : World) :
  failed out →
  let after (m : M bool) (req : Request) (fallback : string) :=
    tasks (exec m w) = tasks w ∧ stats (exec m w) = stats w ∧
    requests (exec m w) = (requests w ++ [req])%list ∧
    toasts (exec m w) = (toasts w ++ [ToastError (failure_text message out fallback)])%list ∧
    result m w = Returned false in
  after (createTask taskData out stats_out)
        (mkRequest POST "/tasks" (TaskPayload taskData) (token w))
        "Failed to create task" ∧
  after (updateTask id taskData out stats_out)
        (mkRequest PUT ("/tasks/" ++ id) (TaskPayload taskData) (token w))
        "Failed to update task" ∧
  after (deleteTask id out stats_out)
        (mkRequest DELETE ("/tasks/" ++ id) NoPayload (token w))
        "Failed to delete task".
Proof.
  intros Hf after. subst after. cbv beta.
  unfold createTask, updateTask, deleteTask. unfold_M.
  destruct out as [b|e]; cbn in Hf |- *.
  - rewrite Hf. done.
  - repeat settle_interceptor; done.
Qed.

Lemma task_mutations_failure_paths_witness :
  let out : ApiOutcome (Body Task) :=
    Reject (mkJsError (Some (mkErrorResponse 404 (Some "Task not found")))) in
  let w' := exec (deleteTask "zz" out (Reject transport_failure)) sample_world in
  failed out ∧ tasks w' = tasks sample_world ∧
  toasts w' = [ToastError "Task not found"].
Proof.
  intros out w'.
  pose proof (task_mutations_failure_paths "zz" no_task_data out
                (Reject transport_failure) sample_world I)
    as (_ & _ & Ht & _ & _ & Hto & _).
  split_and!; [exact I|exact Ht|exact Hto].
Defined.

(** X9.  A failed [login], [register] or [updateProfile]: [false] is
    returned and exactly one error toast is shown, carrying the server's
    message when it is non-empty and the operation's own text otherwise;
    when the server answered (with [success] false) the stored token and
    the session user are as before. *)
Theorem auth_failure_paths
    (name email password : string) (pname pemail : option string)
    (out : ApiOutcome AuthBody) (w : World) :
  auth_failed out →
  let after (m : M bool) (fallback : string) :=
    toasts (exec m w) = (toasts w ++ [ToastError (failure_text auth_message out fallback)])%list ∧
    result m w = Returned false ∧
    (∀ b, out = Resolve b → token (exec m w) = token w ∧ user (exec m w) = user w) in
  after (login email password out) "Login failed" ∧
  after (register name email password out) "Registration failed" ∧
  after (updateProfile pname pemail out) "Profile update failed".
Proof.
  intros Hf after. subst after. cbv beta.
  unfold login, register, updateProfile. unfold_M.
  destruct out as [b|e]; cbn in Hf |- *.
  - rewrite Hf. done.
  - repeat settle_interceptor; split_and!; try done; by intros b [=].
Qed.

Lemma auth_failure_paths_witness :
  let out := Resolve (mkAuthBody false None None (Some "Invalid credentials")) in
  let w' := exec (login "ada@example.org" "wrong" out) sample_world in
  auth_failed out ∧ toasts w' = [ToastError "Invalid credentials"] ∧
  token w' = Some "jwt".
Proof.
  intros out w'.
  pose proof (auth_failure_paths "Ada" "ada@example.org" "wrong" None None out
                sample_world eq_refl) as ((Hto & _ & Hsess) & _).
  split_and!; [reflexivity|exact Hto|exact (proj1 (Hsess _ eq_refl))].
Defined.

(** ** Sequences of operations *)

(** What one operation keeps. *)
Lemma perform_step (op : Operation) (w : World) :
  ∃ w', perform op w = (Returned (), w') ∧
        (auth_loading w = false → auth_loading w' = false) ∧
        (loading w = false → loading w' = false) ∧
        requests w `prefix_of` requests w' ∧
        toasts w `prefix_of` toasts w' ∧
        console w `prefix_of` console w'.
Proof.
  destruct op as [out|em pw out|nm em pw out| |nm em out|fs out|out|td out so
                  |i td out so|i out so|i out];
    cbn [perform]; unfold_ops; unfold_M.
  all: try destruct (truthy_opt (token w)); cbn.
  all: try destruct out as [b|e].
  all: try match goal with
           | |- context [auth_success ?b] => destruct (auth_success b)
           | |- context [success ?b] => destruct (success b)
           end.
  all: cbn; try settle_stats_frame; try settle_interceptor.
  all: eexists; split; [reflexivity|]; cbn.
  all: rewrite ?Hloading, ?Hauth, ?Htoasts, ?Hreqs.
  all: split_and!; try done; try (by repeat apply prefix_app_r).
  all: by etrans; [|exact Hcons].
Qed.

(** X10.  Whatever sequence of manager operations is run, with whatever
    answers from the server: no operation throws, the initial loading of
    the auth manager never comes back once it is over, the task manager's
    loading flag is off again after every operation, and requests, toasts
    and console lines are only ever appended. *)
Theorem operation_sequences_keep_invariants (ops : list Operation) (w : World) :
  let w' := perform_all ops w in
  (auth_loading w = false → auth_loading w' = false) ∧
  (loading w = false → loading w' = false) ∧
  requests w `prefix_of` requests w' ∧
  toasts w `prefix_of` toasts w' ∧
  console w `prefix_of` console w' ∧
  Forall (λ op, ∀ w0, result (perform op) w0 = Returned ()) ops.
Proof.
  revert w. induction ops as [|op ops IH]; intros w.
  - cbn. split_and!; done.
  - change (perform_all (op :: ops) w) with (perform_all ops (exec (perform op) w)).
    destruct (perform_step op w) as (w1 & Hrun & Ha & Hl & Hr & Ht & Hc).
    assert (Hw1 : exec (perform op) w = w1) by (unfold exec; by rewrite Hrun).
    rewrite Hw1.
    destruct (IH w1) as (Ha' & Hl' & Hr' & Ht' & Hc' & Hall).
    split_and!.
    + tauto.
    + tauto.
    + by trans (requests w1).
    + by trans (toasts w1).
    + by trans (console w1).
    + constructor; [|done].
      intros w0. destruct (perform_step op w0) as (w0' & Hrun0 & _).
      unfold result. by rewrite Hrun0.
Qed.

(** ** The held list under successive mutations *)

Lemma createTask_tasks (taskData : TaskData) (b : Body Task)
    (stats_out : ApiOutcome (Body TaskStats)) (w : World) :
  success b = true →
  tasks (exec (createTask taskData (Resolve b) stats_out) w) = data b :: tasks w.
Proof.
  intros Hs. unfold createTask. unfold_M. rewrite Hs. settle_stats. by rewrite Htasks.
Qed.

Lemma updateTask_tasks (id : string) (taskData : TaskData) (b : Body Task)
    (stats_out : ApiOutcome (Body TaskStats)) (w : World) :
  success b = true →
  tasks (exec (updateTask id taskData (Resolve b) stats_out) w) =
  map (λ task, if decide (_id task = id) then data b else task) (tasks w).
Proof.
  intros Hs. unfold updateTask. unfold_M. rewrite Hs. settle_stats. by rewrite Htasks.
Qed.

Lemma deleteTask_tasks {A} (id : string) (b : Body A)
    (stats_out : ApiOutcome (Body TaskStats)) (w : World) :
  success b = true →
  tasks (exec (deleteTask id (Resolve b) stats_out) w) =
  filter (λ task, _id task ≠ id) (tasks w).
Proof.
  intros Hs. unfold deleteTask. unfold_M. rewrite Hs. settle_stats. by rewrite Htasks.
Qed.

Lemma filter_all {A} (P : A → Prop) `{∀ x, Decision (P x)} (l : list A) :
  (∀ x, x ∈ l → P x) → filter P l = l.
Proof.
  induction l as [|x l IH]; intros Hall; [done|].
  rewrite filter_cons_True by (apply Hall; left).
  f_equal. apply IH. intros y Hy. apply Hall. by right.
Qed.

(** X11.  Creating a task and then deleting it by the identifier the server
    gave it brings the held list back to what it was, provided no held task
    already carried that identifier. *)
Theorem create_then_delete_restores_list
    {A} (taskData : TaskData) (b : Body Task) (b' : Body A)
    (stats_out stats_out' : ApiOutcome (Body TaskStats)) (w : World) :
  success b = true → success b' = true →
  _id (data b) ∉ ids (tasks w) →
  let w1 := exec (createTask taskData (Resolve b) stats_out) w in
  let w2 := exec (deleteTask (_id (data b)) (Resolve b') stats_out') w1 in
  tasks w2 = tasks w.
Proof.
  intros Hs Hs' Hfresh w1 w2. subst w1 w2.
  rewrite deleteTask_tasks, createTask_tasks by done.
  rewrite filter_cons_False by (intros Hne; by apply Hne).
  apply filter_all. intros task Hin Heq. apply Hfresh.
  unfold ids. apply list_elem_of_fmap. by exists task.
Qed.

Lemma create_then_delete_restores_list_witness :
  let b := mkBody true (sample_task "n1" "New") None in
  let b' := mkBody true (sample_task "n1" "New") None in
  let w1 := exec (createTask no_task_data (Resolve b) (Reject transport_failure)) sample_world in
  let w2 := exec (deleteTask "n1" (Resolve b') (Reject transport_failure)) w1 in
  success b = true ∧ success b' = true ∧ (_id (data b) ∉ ids (tasks sample_world)) ∧
  length (tasks w1) = 4%nat ∧ tasks w2 = tasks sample_world.
Proof.
  intros b b' w1 w2.
  assert (Hfresh : _id (data b) ∉ ids (tasks sample_world)).
  { cbn. set_unfold. intuition discriminate. }
  split_and!; [reflexivity|reflexivity|exact Hfresh|reflexivity|].
  exact (create_then_delete_restores_list no_task_data b b' (Reject transport_failure)
           (Reject transport_failure) sample_world eq_refl eq_refl Hfresh).
Defined.

(** X12.  Repeating a successful [updateTask] or [deleteTask] with the same
    identifier and the same answer leaves the held list as the first call
    left it. *)
Theorem repeated_mutation_changes_nothing
    (id : string) (taskData : TaskData) (b : Body Task)
    (s1 s2 : ApiOutcome (Body TaskStats)) (w : World) :
  success b = true →
  tasks (exec (updateTask id taskData (Resolve b) s2)
           (exec (updateTask id taskData (Resolve b) s1) w))
  = tasks (exec (updateTask id taskData (Resolve b) s1) w) ∧
  tasks (exec (deleteTask id (Resolve b) s2) (exec (deleteTask id (Resolve b) s1) w))
  = tasks (exec (deleteTask id (Resolve b) s1) w).
Proof.
  intros Hs. rewrite !updateTask_tasks, !deleteTask_tasks by done. split.
  - rewrite map_map. apply map_ext. intros task.
    destruct (decide (_id task = id)) as [Heq|Hne].
    + by destruct (decide (_id (data b) = id)).
    + by rewrite decide_False.
  - apply filter_twice.
Qed.

Lemma repeated_mutation_changes_nothing_witness :
  let b := mkBody true (sample_task "x9" "Renamed") None in
  success b = true ∧
  tasks (exec (updateTask "a" no_task_data (Resolve b) (Reject transport_failure))
           (exec (updateTask "a" no_task_data (Resolve b) (Reject transport_failure))
              sample_world))
  = [sample_task "x9" "Renamed"; sample_task "b" "Call Sam"; sample_task "x9" "Renamed"].
Proof.
  intros b. split; [reflexivity|].
  rewrite (proj1 (repeated_mutation_changes_nothing "a" no_task_data b
                    (Reject transport_failure) (Reject transport_failure)
                    sample_world eq_refl)).
  reflexivity.
Defined.

(** X13.  Distinct identifiers in the held list stay distinct: after a
    successful [createTask] whose record has a new identifier, after a
    successful [updateTask] whose record carries the identifier it was
    asked to update (the identifiers are then the same list as before),
    and after any successful [deleteTask]. *)
Theorem distinct_ids_preserved
    (id : string) (taskData : TaskData) (b : Body Task)
    (stats_out : ApiOutcome (Body TaskStats)) (w : World) :
  NoDup (ids (tasks w)) →
  success b = true →
  (_id (data b) ∉ ids (tasks w) →
   NoDup (ids (tasks (exec (createTask taskData (Resolve b) stats_out) w)))) ∧
  (_id (data b) = id →
   ids (tasks (exec (updateTask id taskData (Resolve b) stats_out) w)) = ids (tasks w)) ∧
  NoDup (ids (tasks (exec (deleteTask id (Resolve b) stats_out) w))).
Proof.
  intros Hnd Hs. split_and!.
  - intros Hfresh. rewrite createTask_tasks by done. cbn. by apply NoDup_cons.
  - intros Hid. rewrite updateTask_tasks by done. unfold ids.
    rewrite map_map. apply map_ext_in. intros task _.
    destruct (decide (_id task = id)); congruence.
  - rewrite deleteTask_tasks by done. unfold ids in *.
    induction (tasks w) as [|t l IH]; [constructor|].
    cbn in Hnd. apply NoDup_cons in Hnd as [Hnotin Hnd].
    destruct (decide (_id t ≠ id)).
    + rewrite filter_cons_True by done. cbn. apply NoDup_cons. split; [|by apply IH].
      intros Hin. apply Hnotin.
      apply list_elem_of_fmap in Hin as (t' & -> & Hin').
      apply list_elem_of_filter in Hin' as [_ Hin'].
      apply list_elem_of_fmap. by exists t'.
    + rewrite filter_cons_False by done. by apply IH.
Qed.

Lemma distinct_ids_preserved_witness :
  let b := mkBody true (sample_task "b" "Call Sam today") None in
  NoDup (ids (tasks distinct_world)) ∧ success b = true ∧
  ids (tasks (exec (updateTask "b" no_task_data (Resolve b) (Reject transport_failure))
                distinct_world)) = ["a"; "b"; "c"] ∧
  NoDup (ids (tasks (exec (deleteTask "b" (Resolve b) (Reject transport_failure))
                       distinct_world))).
Proof.
  intros b.
  assert (Hnd : NoDup (ids (tasks distinct_world))).
  { cbn. repeat (apply NoDup_cons; split; [set_unfold; intuition discriminate|]).
    apply NoDup_nil_2. }
  pose proof (distinct_ids_preserved "b" no_task_data b (Reject transport_failure)
                distinct_world Hnd eq_refl) as (_ & Hupd & Hdel).
  split_and!; [exact Hnd|reflexivity|exact (Hupd eq_refl)|exact Hdel].
Defined.

(** X14.  With distinct identifiers in the held list, a successful
    [deleteTask] of an identifier that is held shortens the list by exactly
    one; of an identifier that is not held, it leaves the list as it is. *)
Theorem deleteTask_removes_exactly_one
    {A} (id : string) (b : Body A)
    (stats_out : ApiOutcome (Body TaskStats)) (w : World) :
  NoDup (ids (tasks w)) →
  success b = true →
  let w' := exec (deleteTask id (Resolve b) stats_out) w in
  (id ∈ ids (tasks w) → S (length (tasks w')) = length (tasks w)) ∧
  (id ∉ ids (tasks w) → tasks w' = tasks w).
Proof.
  intros Hnd Hs w'. subst w'. rewrite deleteTask_tasks by done. split.
  - unfold ids in *. induction (tasks w) as [|t l IH]; intros Hin.
    + by apply elem_of_nil in Hin.
    + cbn in Hnd, Hin. apply NoDup_cons in Hnd as [Hnotin Hnd].
      destruct (decide (_id t ≠ id)) as [Hne|Heq].
      * rewrite filter_cons_True by done. cbn. f_equal. apply IH; [done|].
        apply elem_of_cons in Hin as [Heq|Hin]; [congruence|done].
      * rewrite filter_cons_False by done. cbn. f_equal.
        assert (Hid : _id t = id) by (destruct (decide (_id t = id)); tauto).
        rewrite filter_all; [done|].
        intros x Hx Hxid. apply Hnotin. apply list_elem_of_fmap.
        exists x. split; [congruence|done].
  - intros Hnotin. apply filter_all. intros task Hin Heq. apply Hnotin.
    unfold ids. apply list_elem_of_fmap. by exists task.
Qed.

Lemma deleteTask_removes_exactly_one_witness :
  let b := mkBody true () None in
  let w' := exec (deleteTask "b" (Resolve b) (Reject transport_failure)) distinct_world in
  NoDup (ids (tasks distinct_world)) ∧ success b = true ∧ "b" ∈ ids (tasks distinct_world) ∧
  length (tasks w') = 2%nat.
Proof.
  intros b w'.
  assert (Hnd : NoDup (ids (tasks distinct_world))).
  { cbn. repeat (apply NoDup_cons; split; [set_unfold; intuition discriminate|]).
    apply NoDup_nil_2. }
  assert (Hin : "b" ∈ ids (tasks distinct_world)) by (cbn; set_solver).
  pose proof (deleteTask_removes_exactly_one "b" b (Reject transport_failure)
                distinct_world Hnd eq_refl) as [Hone _].
  split_and!; [exact Hnd|reflexivity|exact Hin|].
  apply Nat.succ_inj. exact (Hone Hin).
Defined.

(** X15.  The dashboard's recent tasks are the first five of the held list
    at most; right after a successful [createTask] the new record is the
    first of them, followed by the four that led the list before. *)
Theorem recentTasks_after_create
    (taskData : TaskData) (b : Body Task)
    (stats_out : ApiOutcome (Body TaskStats)) (w : World) :
  success b = true →
  let w' := exec (createTask taskData (Resolve b) stats_out) w in
  Dashboard.recentTasks (tasks w') = data b :: take 4 (tasks w) ∧
  Dashboard.recentTasks (tasks w') `prefix_of` tasks w' ∧
  length (Dashboard.recentTasks (tasks w')) = (length (tasks w) + 1) `min` 5.
Proof.
  intros Hs w'. subst w'. rewrite createTask_tasks by done.
  unfold Dashboard.recentTasks. split_and!.
  - done.
  - apply prefix_take.
  - rewrite length_take. cbn [length]. lia.
Qed.

Lemma recentTasks_after_create_witness :
  let b := mkBody true (sample_task "n1" "New") None in
  let w' := exec (createTask no_task_data (Resolve b) (Reject transport_failure))
                 distinct_world in
  success b = true ∧
  Dashboard.recentTasks (tasks w') = sample_task "n1" "New" :: tasks distinct_world.
Proof.
  intros b w'. split; [reflexivity|].
  exact (proj1 (recentTasks_after_create no_task_data b (Reject transport_failure)
                  distinct_world eq_refl)).
Defined.

(** ** Searching the held list *)


Lemma append_cons (c : ascii) (s t : string) : String c s ++ t = String c (s ++ t).
Proof. reflexivity. Qed.

Lemma append_nil_l (s : string) : "" ++ s = s.
Proof. reflexivity. Qed.










(** ** Filter controls and the query they produce *)

(** X17.  Changing one filter control and letting the page refetch: the
    query carries the changed key with the new value exactly when that
    value is non-empty, and what the other keys contribute is as before. *)
Theorem filter_control_drives_query
    (key : TaskFilters.FilterKey) (value : string) (filters : FilterState) :
  let before := query_params (Some (queryParams filters)) in
  let after := query_params (Some (queryParams
                 (TaskFilters.handleFilterChange key value filters))) in
  (∀ v, (TaskFilters.key_name key, v) ∈ after ↔ v = value ∧ value ≠ "") ∧
  (∀ k v, k ≠ TaskFilters.key_name key → (k, v) ∈ after ↔ (k, v) ∈ before).
Proof.
  intros before after. subst before after. rewrite !handleFilterChange_query.
  destruct filters as [s p c]. destruct key; cbn.
  all: split; [intros v|intros k v Hk].
  all: repeat match goal with
              | |- context [truthy ?x] =>
                  let H := fresh "Ht" in
                  destruct (truthy x) eqn:H;
                  [apply truthy_true_iff in H|apply truthy_false_iff in H]
              end.
  all: cbn; set_unfold; intuition (try congruence).
Qed.

(** X18.  The "Clear Filters" button is rendered exactly when the page's
    query carries at least one parameter, which is also exactly when the
    page counts a filter as set; after [clearFilters] the button is gone
    and the page fetches [/tasks?] with no parameter. *)
Theorem clear_button_iff_query_nonempty
    (filters : FilterState) (out : ApiOutcome (Body (list Task))) (w : World) :
  (TaskFilters.shows_clear filters = true ↔
   query_params (Some (queryParams filters)) ≠ []) ∧
  TaskFilters.shows_clear filters = TasksPage.some_filter filters ∧
  TaskFilters.shows_clear TaskFilters.clearFilters = false ∧
  requests (exec (handleFilterChange TaskFilters.clearFilters out) w) =
    (requests w ++ [mkRequest GET "/tasks?" NoPayload (token w)])%list.
Proof.
  split_and!.
  - rewrite handleFilterChange_query.
    destruct filters as [[|? ?] [|? ?] [|? ?]]; cbn; split; congruence.
  - by destruct filters as [[|? ?] [|? ?] [|? ?]].
  - done.
  - unfold handleFilterChange, fetchTasks. unfold_M.
    change (query_params (Some (queryParams TaskFilters.clearFilters))) with (@nil (string * string)).
    cbn. destruct out as [b|e].
    + by destruct (success b).
    + settle_interceptor; done.
Qed.

(** ** Form validation *)

Lemma errors_step (c c' : bool) (k k' v v' : string) (m : gmap string string) :
  (if c then <[k := v]> m else if c' then <[k' := v']> m else m) = ∅ ↔
  c = false ∧ c' = false ∧ m = ∅.
Proof.
  destruct c, c'; split; try (intros H; by apply insert_non_empty in H);
    try (intros (? & ? & ?); discriminate); [by intros ->|by intros (_ & _ & ->)].
Qed.

Lemma errors_step1 (c : bool) (k v : string) (m : gmap string string) :
  (if c then <[k := v]> m else m) = ∅ ↔ c = false ∧ m = ∅.
Proof.
  destruct c; split; try (intros H; by apply insert_non_empty in H);
    try (intros (? & ?); discriminate); [by intros ->|by intros (_ & ->)].
Qed.

Lemma verdict_true (errs : gmap string string) :
  bool_decide (size errs = 0) = true ↔ errs = ∅.
Proof. by rewrite bool_decide_eq_true, map_size_empty_iff. Qed.

Lemma truthy_length (s : string) : truthy s = true ↔ (0 < String.length s)%nat.
Proof. destruct s; cbn; split; first [discriminate | lia | done]. Qed.

Lemma register_newErrors_empty (fd : Register.FormData) :
  Register.newErrors fd = ∅ ↔
  (2 ≤ String.length (Register.name fd))%nat ∧
  email_pattern_test (Register.email fd) = true ∧
  (6 ≤ String.length (Register.password fd))%nat ∧
  Register.confirmPassword fd = Register.password fd.
Proof.
  unfold Register.newErrors. cbv zeta. rewrite !errors_step.
  destruct fd as [n e p c];
    cbn [Register.name Register.email Register.password Register.confirmPassword].
  rewrite !negb_false_iff, !Nat.ltb_ge, !truthy_length, bool_decide_eq_false.
  split.
  - intros (Hc & Hpc & Hp & Hp6 & He & Het & Hn & Hn2 & _).
    split_and!; [done|done|done|].
    destruct (decide (c = p)); [done|]. exfalso. apply Hpc. congruence.
  - intros (Hn2 & Het & Hp6 & ->).
    split_and!; try done; try lia.
    + intros Hne. by apply Hne.
    + destruct e; [discriminate|cbn; lia].
Qed.

(** X19.  The registration form passes validation exactly when the name has
    at least 2 characters, the e-mail matches the pattern, the password has
    at least 6 characters and the confirmation equals the password. *)
Theorem register_valid_iff (st : Register.State) :
  (Register.validateForm st).2 = true ↔
  (2 ≤ String.length (Register.name (Register.formData st)))%nat ∧
  email_pattern_test (Register.email (Register.formData st)) = true ∧
  (6 ≤ String.length (Register.password (Register.formData st)))%nat ∧
  Register.confirmPassword (Register.formData st) = Register.password (Register.formData st).
Proof.
  unfold Register.validateForm. cbn [snd]. rewrite verdict_true.
  apply register_newErrors_empty.
Qed.

(** The required-field test [!s.trim()] fires exactly on strings made of
    white space only. *)
Lemma truthy_rev_app (s acc : string) :
  truthy (String.rev_app s acc) = truthy s || truthy acc.
Proof.
  revert acc. induction s as [|c s IH]; intros acc; cbn; [done|].
  rewrite IH. cbn. by rewrite orb_true_r.
Qed.

Lemma all_space_rev_app (s acc : string) :
  all_space (String.rev_app s acc) = all_space s && all_space acc.
Proof.
  revert acc. induction s as [|c s IH]; intros acc; cbn; [done|].
  rewrite IH. cbn. destruct (is_whitespace c), (all_space s); done.
Qed.

Lemma truthy_trimStart (s : string) : truthy (trimStart s) = negb (all_space s).
Proof.
  induction s as [|c s IH]; cbn; [done|].
  by destruct (is_whitespace c).
Qed.

Lemma all_space_trimStart (s : string) : all_space (trimStart s) = all_space s.
Proof.
  induction s as [|c s IH]; cbn; [done|].
  destruct (is_whitespace c) eqn:Hc; cbn; [done|by rewrite Hc].
Qed.

Lemma truthy_trim (s : string) : truthy (trim s) = negb (all_space s).
Proof.
  unfold trim, String.rev.
  rewrite truthy_rev_app, orb_false_r, truthy_trimStart.
  by rewrite all_space_rev_app, andb_true_r, all_space_trimStart.
Qed.

(** X20.  The task form passes validation exactly when the title is not
    made of white space only and has at most 100 characters, the
    description at most 500, the category at most 50, and the due-date test
    does not fire. *)
Theorem taskform_valid_iff (clk : Date.Clock) (formData : TaskForm.FormData) :
  (TaskForm.validateForm clk formData).2 = true ↔
  all_space (TaskForm.title formData) = false ∧
  (String.length (TaskForm.title formData) ≤ 100)%nat ∧
  (String.length (TaskForm.description formData) ≤ 500)%nat ∧
  (String.length (TaskForm.category formData) ≤ 50)%nat ∧
  TaskForm.due_date_in_past clk (TaskForm.dueDate formData) = false.
Proof.
  unfold TaskForm.validateForm. cbn [snd]. rewrite verdict_true.
  unfold TaskForm.newErrors. cbv zeta. rewrite !errors_step1, errors_step.
  rewrite truthy_trim, negb_involutive.
  rewrite !andb_false_iff, !Nat.ltb_ge, !truthy_false_iff.
  split.
  - intros (Hd & Hc & Hde & Ht & Hl & _). split_and!; try done.
    + destruct Hde as [->|]; [cbn; lia|done].
    + destruct Hc as [->|]; [cbn; lia|done].
  - intros (Ht & Hl & Hde & Hc & Hd). split_and!; auto.
Qed.

(** ** The e-mail pattern *)

Lemma non_space_plus_spec (k : string → bool) (s : string) :
  non_space_plus k s = true ↔
  ∃ a r, s = a ++ r ∧ non_space_word a ∧ k r = true.
Proof.
  split.
  - induction s as [|c s IH]; cbn [non_space_plus]; [discriminate|].
    destruct (is_whitespace c) eqn:Hc; [discriminate|].
    rewrite orb_true_iff. intros [Hrec|Hk].
    + destruct (IH Hrec) as (a & r & -> & [Ha Hns] & Hk).
      exists (String c a), r. split; [done|]. split; [|done]. split; [done|].
      cbn. by rewrite Hc, Hns.
    + exists (String c ""), s. split; [done|]. split; [|done]. split; [done|].
      cbn. by rewrite Hc.
  - intros (a & r & -> & [Ha Hns] & Hk).
    induction a as [|c a IH]; [done|].
    rewrite append_cons. cbn [non_space_plus]. cbn in Hns.
    apply andb_true_iff in Hns as [Hc Hns]. apply negb_true_iff in Hc. rewrite Hc.
    rewrite orb_true_iff. destruct a as [|c' a].
    + right. by rewrite append_nil_l.
    + left. by apply IH.
Qed.

Lemma literal_spec (c : ascii) (k : string → bool) (s : string) :
  literal c k s = true ↔ ∃ r, s = String c r ∧ k r = true.
Proof.
  destruct s as [|c' s]; cbn.
  - split; [discriminate|by intros (r & ? & _)].
  - rewrite andb_true_iff, Ascii.eqb_eq. split.
    + intros [-> Hk]. by exists s.
    + intros (r & [= -> ->] & Hk). done.
Qed.

Lemma email_pattern_here_spec (s : string) :
  email_pattern_here s = true ↔
  ∃ a m b r, s = a ++ "@" ++ m ++ "." ++ b ++ r ∧
             non_space_word a ∧ non_space_word m ∧ non_space_word b.
Proof.
  unfold email_pattern_here. rewrite non_space_plus_spec. split.
  - intros (a & r1 & -> & Ha & H1).
    apply literal_spec in H1 as (r2 & -> & H2).
    apply non_space_plus_spec in H2 as (m & r3 & -> & Hm & H3).
    apply literal_spec in H3 as (r4 & -> & H4).
    apply non_space_plus_spec in H4 as (b & r & -> & Hb & _).
    by exists a, m, b, r.
  - intros (a & m & b & r & -> & Ha & Hm & Hb).
    exists a, ("@" ++ m ++ "." ++ b ++ r). split_and!; [done|done|].
    apply literal_spec. exists (m ++ "." ++ b ++ r). split; [done|].
    apply non_space_plus_spec. exists m, ("." ++ b ++ r). split_and!; [done|done|].
    apply literal_spec. exists (b ++ r). split; [done|].
    apply non_space_plus_spec. by exists b, r.
Qed.

(** X21.  The e-mail test accepts exactly the strings that contain, somewhere,
    a run of non-space characters, an [@], another run of non-space
    characters, a dot and a further non-space run; what comes before and
    after is not examined. *)
Theorem email_pattern_spec (s : string) :
  email_pattern_test s = true ↔
  ∃ l a m b r, s = l ++ a ++ "@" ++ m ++ "." ++ b ++ r ∧
               non_space_word a ∧ non_space_word m ∧ non_space_word b.
Proof.
  split.
  - induction s as [|c s IH]; cbn [email_pattern_test]; rewrite orb_true_iff.
    + intros [Hh|]; [|discriminate].
      apply email_pattern_here_spec in Hh as (a & m & b & r & Hs & H).
      by exists "", a, m, b, r.
    + intros [Hh|Ht].
      * apply email_pattern_here_spec in Hh as (a & m & b & r & Hs & H).
        by exists "", a, m, b, r.
      * destruct (IH Ht) as (l & a & m & b & r & -> & H).
        by exists (String c l), a, m, b, r.
  - intros (l & a & m & b & r & -> & H).
    assert (Hh : email_pattern_here (a ++ "@" ++ m ++ "." ++ b ++ r) = true)
      by (apply email_pattern_here_spec; by exists a, m, b, r).
    induction l as [|c l IH].
    + rewrite append_nil_l.
      destruct (a ++ "@" ++ m ++ "." ++ b ++ r); cbn [email_pattern_test];
        by rewrite Hh.
    + rewrite append_cons. cbn [email_pattern_test]. rewrite IH. apply orb_true_r.
Qed.

Lemma all_space_app (l r : string) : all_space (l ++ r) = all_space l && all_space r.
Proof.
  induction l as [|c l IH]; [done|].
  rewrite append_cons. cbn. rewrite IH. by rewrite andb_assoc.
Qed.

Lemma email_pattern_not_blank (s : string) :
  email_pattern_test s = true → all_space s = false.
Proof.
  intros (l & a & m & b & r & -> & [Ha Hns] & _)%email_pattern_spec.
  rewrite all_space_app. apply andb_false_iff. right.
  destruct a as [|c a]; [done|]. rewrite append_cons. cbn in Hns |- *.
  apply andb_true_iff in Hns as [Hc _]. apply negb_true_iff in Hc. by rewrite Hc.
Qed.

(** X22.  The profile form passes validation exactly when the name is not
    made of white space only and has at least 2 characters and the e-mail
    matches the pattern.  Every name and e-mail it accepts pass the checks
    of the registration form as well. *)
Theorem profile_valid_iff (st : Profile.State) :
  ((Profile.validateForm st).2 = true ↔
   all_space (Profile.name (Profile.formData st)) = false ∧
   (2 ≤ String.length (Profile.name (Profile.formData st)))%nat ∧
   email_pattern_test (Profile.email (Profile.formData st)) = true) ∧
  ((Profile.validateForm st).2 = true →
   ∀ password : string, (6 ≤ String.length password)%nat →
     ∀ errs, (Register.validateForm
                (Register.mkState
                   (Register.mkFormData (Profile.name (Profile.formData st))
                      (Profile.email (Profile.formData st)) password password)
                   false errs)).2 = true).
Proof.
  assert (Hiff : (Profile.validateForm st).2 = true ↔
    all_space (Profile.name (Profile.formData st)) = false ∧
    (2 ≤ String.length (Profile.name (Profile.formData st)))%nat ∧
    email_pattern_test (Profile.email (Profile.formData st)) = true).
  { unfold Profile.validateForm. cbn [snd]. rewrite verdict_true.
    unfold Profile.newErrors. cbv zeta. rewrite !errors_step.
    rewrite !truthy_trim, !negb_involutive, negb_false_iff, Nat.ltb_ge.
    split.
    - intros (_ & He & Hn & Hl & _). done.
    - intros (Hn & Hl & He). split_and!; try done.
      by apply email_pattern_not_blank. }
  split; [exact Hiff|].
  intros Hv password Hp errs. apply Hiff in Hv as (_ & Hl & He).
  unfold Register.validateForm. cbn [snd Register.formData]. rewrite verdict_true.
  apply register_newErrors_empty. cbn. done.
Qed.

(** ** The query string *)

Lemma count_unit_app (c : ascii) (s t : string) :
  count_unit c (s ++ t) = (count_unit c s + count_unit c t)%nat.
Proof.
  induction s as [|c' s IH]; [done|].
  rewrite append_cons. cbn. rewrite IH. lia.
Qed.

Lemma urlencode_unit_no_separator (c : ascii) :
  count_unit "&" (urlencode_unit c) = 0%nat ∧ count_unit "=" (urlencode_unit c) = 0%nat.
Proof. destruct c as [[] [] [] [] [] [] [] []]; split; reflexivity. Qed.

Lemma urlencode_no_separator (s : string) :
  count_unit "&" (urlencode s) = 0%nat ∧ count_unit "=" (urlencode s) = 0%nat.
Proof.
  induction s as [|c s [IH1 IH2]]; [done|].
  cbn [urlencode]. rewrite !count_unit_app, IH1, IH2.
  by destruct (urlencode_unit_no_separator c) as [-> ->].
Qed.

Lemma concat_two (sep x y : string) (l : list string) :
  String.concat sep (x :: y :: l) = x ++ sep ++ String.concat sep (y :: l).
Proof. reflexivity. Qed.

Lemma toString_separators (params : list (string * string)) :
  count_unit "=" (URLSearchParams_toString params) = length params ∧
  count_unit "&" (URLSearchParams_toString params) = pred (length params).
Proof.
  unfold URLSearchParams_toString.
  induction params as [|[k v] params [IH1 IH2]]; [done|].
  destruct (urlencode_no_separator k) as [Hk1 Hk2].
  destruct (urlencode_no_separator v) as [Hv1 Hv2].
  destruct params as [|kv params].
  - change (String.concat "&" (map (λ kv, urlencode kv.1 ++ "=" ++ urlencode kv.2) [(k, v)]))
      with (urlencode k ++ "=" ++ urlencode v).
    rewrite !count_unit_app, Hk1, Hk2, Hv1, Hv2. done.
  - rewrite !map_cons in *. rewrite concat_two.
    cbn [fst snd length] in *.
    rewrite !count_unit_app, IH1, IH2, Hk1, Hk2, Hv1, Hv2. cbn. lia.
Qed.

(** X23.  Whatever text the filters hold, the query string of [fetchTasks]
    has exactly one [=] per forwarded filter and one [&] between
    neighbours: a filter value cannot add or split a parameter. *)
Theorem query_has_one_pair_per_filter (filters : option Filters) :
  let params := query_params filters in
  let query := URLSearchParams_toString params in
  count_unit "=" query = length params ∧
  count_unit "&" query = pred (length params) ∧
  (length params ≤ length (entries filters))%nat.
Proof.
  intros params query. subst params query.
  destruct (toString_separators (query_params filters)) as [H1 H2].
  split_and!; [done|done|].
  destruct filters as [o|]; [|done]. cbn [entries].
  rewrite query_params_omap.
  pose proof (sublist_length _ _ (forwarded_keys_sublist o (Object_keys o))) as Hlen.
  unfold Object_keys in Hlen. by rewrite !length_map in Hlen.
Qed.

(** ** The due-date test, zone by zone *)

(** X24.  For a due date naming day [d] and a zone less than a day away
    from UTC, the due-date test fires exactly when [d] is before the
    current local day, or is the current local day in a zone behind UTC.
    It never fires on a later day, and never on an empty field. *)
Theorem due_date_reported_iff (clk : Date.Clock) (s : string) (d : Z) :
  Date.day_of s = Some d →
  (-1440 < Date.utc_offset_minutes clk < 1440)%Z →
  (TaskForm.due_date_in_past clk s = true ↔
   (d < Date.today clk)%Z ∨ (d = Date.today clk ∧ Date.utc_offset_minutes clk < 0)%Z) ∧
  TaskForm.due_date_in_past clk "" = false.
Proof.
  intros Hd Hoff. split; [|done].
  rewrite (due_date_in_past_days clk s d Hd), Z.ltb_lt.
  unfold Date.LocalTZA, Date.msPerDay, Date.msPerMinute. lia.
Qed.

Lemma due_date_reported_iff_witness :
  Date.day_of "2024-06-14" = Some (Date.today evening_in_nairobi - 1)%Z ∧
  (-1440 < Date.utc_offset_minutes evening_in_nairobi < 1440)%Z ∧
  TaskForm.due_date_in_past evening_in_nairobi "2024-06-14" = true.
Proof.
  assert (Hoff : (-1440 < Date.utc_offset_minutes evening_in_nairobi < 1440)%Z)
    by (cbn; lia).
  split; [reflexivity|]. split; [exact Hoff|].
  apply (due_date_reported_iff evening_in_nairobi "2024-06-14" _ eq_refl Hoff).
  left. vm_compute. reflexivity.
Defined.

(** ** Submitting the registration and profile forms *)

(** Whether the server accepted an auth request. *)
Lemma register_result (name email password : string) (out : ApiOutcome AuthBody) (w : World) :
  result (register name email password out) w =
  Returned match out with
           | Resolve b => auth_success b
           | Reject _ => false
           end.
Proof.
  unfold register. unfold_M. destruct out as [b|e].
  - by destruct (auth_success b).
  - settle_interceptor; done.
Qed.

Lemma updateProfile_result (name email : option string) (out : ApiOutcome AuthBody) (w : World) :
  result (updateProfile name email out) w =
  Returned match out with
           | Resolve b => auth_success b
           | Reject _ => false
           end.
Proof.
  unfold updateProfile. unfold_M. destruct out as [b|e].
  - by destruct (auth_success b).
  - settle_interceptor; done.
Qed.

(** X25.  Submitting the registration form never leaves it loading and
    never throws.  With validation errors the errors are shown and the
    world is untouched (no request); a valid form the server refuses ends
    with the single general error; a valid form the server accepts ends
    with no error. *)
Theorem register_submit_outcomes
    (st : Register.State) (out : ApiOutcome AuthBody) (w : World) :
  let fd := Register.formData st in
  if (Register.validateForm st).2 then
    result (Register.handleSubmit st out) w =
    Returned (Register.mkState fd false
                match out with
                | Resolve b =>
                    if auth_success b then ∅
                    else {["general" := "Registration failed. Please try again."]}
                | Reject _ => {["general" := "Registration failed. Please try again."]}
                end)
  else
    result (Register.handleSubmit st out) w =
      Returned (Register.mkState fd (Register.loading st) (Register.newErrors fd)) ∧
    Register.newErrors fd ≠ ∅ ∧
    exec (Register.handleSubmit st out) w = w.
Proof.
  intros fd. subst fd. unfold Register.handleSubmit.
  destruct (Register.validateForm st) as [st1 valid] eqn:Hvf.
  unfold Register.validateForm in Hvf. injection Hvf as <- <-. cbn [snd].
  destruct (bool_decide _) eqn:Hv; cbn [negb].
  - apply verdict_true in Hv. cbn [Register.formData Register.errors].
    pose proof (register_result (Register.name (Register.formData st))
                  (Register.email (Register.formData st))
                  (Register.password (Register.formData st)) out w) as Hres.
    unfold result in *. unfold mbind, M_bind.
    destruct (register _ _ _ out w) as [c w1]. cbn in Hres. subst c. rewrite Hv.
    destruct out as [b|e]; [destruct (auth_success b)|]; done.
  - split_and!; [done| |done].
    intros Hempty. apply verdict_true in Hempty. congruence.
Qed.

(** ** Calendar arithmetic *)

Section Calendar.

Local Open Scope Z_scope.

Lemma isLeapYear_spec (y : Z) :
  Date.isLeapYear y = true ↔ y mod 4 = 0 ∧ (y mod 100 ≠ 0 ∨ y mod 400 = 0).
Proof.
  unfold Date.isLeapYear.
  rewrite andb_true_iff, orb_true_iff, negb_true_iff, !Z.eqb_eq, Z.eqb_neq. tauto.
Qed.

Lemma DayFromYear_succ (y : Z) :
  Date.DayFromYear (y + 1) =
  Date.DayFromYear y + (if Date.isLeapYear y then 366 else 365).
Proof.
  destruct (Date.isLeapYear y) eqn:Hleap.
  - apply isLeapYear_spec in Hleap. unfold Date.DayFromYear.
    Z.div_mod_to_equations. lia.
  - assert (Hn : ¬ (y mod 4 = 0 ∧ (y mod 100 ≠ 0 ∨ y mod 400 = 0))).
    { intros H%isLeapYear_spec. congruence. }
    unfold Date.DayFromYear. Z.div_mod_to_equations. lia.
Qed.

Lemma DayFromYear_lt_succ (y : Z) : Date.DayFromYear y < Date.DayFromYear (y + 1).
Proof. rewrite DayFromYear_succ. destruct (Date.isLeapYear y); lia. Qed.

Lemma DayFromYear_mono (a b : Z) : a ≤ b → Date.DayFromYear a ≤ Date.DayFromYear b.
Proof.
  intros Hab. replace b with (a + Z.of_nat (Z.to_nat (b - a))) by lia.
  induction (Z.to_nat (b - a)) as [|n IH]; [by rewrite Z.add_0_r|].
  rewrite Nat2Z.inj_succ.
  replace (a + Z.succ (Z.of_nat n)) with (a + Z.of_nat n + 1) by lia.
  pose proof (DayFromYear_lt_succ (a + Z.of_nat n)). lia.
Qed.

Lemma year_from_spec (fuel : nat) (y0 y day : Z) :
  y0 ≤ y → y - y0 ≤ Z.of_nat fuel →
  Date.DayFromYear y ≤ day < Date.DayFromYear (y + 1) →
  DateISO.year_from fuel y0 day = y.
Proof.
  revert y0. induction fuel as [|fuel IH]; intros y0 Hle Hfuel Hday; cbn [DateISO.year_from].
  - lia.
  - destruct (Z.leb_spec (Date.DayFromYear (y0 + 1)) day) as [Hnext|Hnext].
    + apply IH; [|lia|done].
      destruct (decide (y0 = y)) as [->|]; lia.
    + destruct (decide (y0 = y)) as [|Hne]; [done|].
      pose proof (DayFromYear_mono (y0 + 1) y). lia.
Qed.

(** The days of a year before each of its months. *)
Lemma days_before_month_table (y : Z) :
  let leap := if Date.isLeapYear y then 1 else 0 in
  Date.days_before_month y 1 = 0 ∧ Date.days_before_month y 2 = 31 ∧
  Date.days_before_month y 3 = 59 + leap ∧ Date.days_before_month y 4 = 90 + leap ∧
  Date.days_before_month y 5 = 120 + leap ∧ Date.days_before_month y 6 = 151 + leap ∧
  Date.days_before_month y 7 = 181 + leap ∧ Date.days_before_month y 8 = 212 + leap ∧
  Date.days_before_month y 9 = 243 + leap ∧ Date.days_before_month y 10 = 273 + leap ∧
  Date.days_before_month y 11 = 304 + leap ∧ Date.days_before_month y 12 = 334 + leap ∧
  Date.days_before_month y 13 = 365 + leap.
Proof.
  cbv [Date.days_before_month Date.DaysInMonth Z.of_nat Pos.of_succ_nat Pos.succ
       Z.eqb Pos.eqb orb].
  destruct (Date.isLeapYear y); cbn; repeat split; lia.
Qed.

Lemma months_enumerated (m : Z) :
  1 ≤ m ≤ 12 →
  m = 1 ∨ m = 2 ∨ m = 3 ∨ m = 4 ∨ m = 5 ∨ m = 6 ∨
  m = 7 ∨ m = 8 ∨ m = 9 ∨ m = 10 ∨ m = 11 ∨ m = 12.
Proof. lia. Qed.

Lemma DaysInMonth_table (y : Z) :
  Date.DaysInMonth y 1 = 31 ∧
  Date.DaysInMonth y 2 = (if Date.isLeapYear y then 29 else 28) ∧
  Date.DaysInMonth y 3 = 31 ∧ Date.DaysInMonth y 4 = 30 ∧ Date.DaysInMonth y 5 = 31 ∧
  Date.DaysInMonth y 6 = 30 ∧ Date.DaysInMonth y 7 = 31 ∧ Date.DaysInMonth y 8 = 31 ∧
  Date.DaysInMonth y 9 = 30 ∧ Date.DaysInMonth y 10 = 31 ∧ Date.DaysInMonth y 11 = 30 ∧
  Date.DaysInMonth y 12 = 31.
Proof. repeat split. Qed.

End Calendar.

Section CalendarInverse.

Local Open Scope Z_scope.

Lemma DaysInMonth_pos (y m : Z) : 28 ≤ Date.DaysInMonth y m ≤ 31.
Proof.
  unfold Date.DaysInMonth.
  destruct (m =? 2); [destruct (Date.isLeapYear y); lia|].
  destruct ((m =? 4) || (m =? 6) || (m =? 9) || (m =? 11)); lia.
Qed.

Lemma days_before_month_succ (y : Z) (k : nat) :
  (1 ≤ k)%nat →
  Date.days_before_month y (S k) =
  Date.days_before_month y k + Date.DaysInMonth y (Z.of_nat k).
Proof. destruct k as [|k]; [lia|]. done. Qed.

Lemma days_before_month_mono (y : Z) (a b : nat) :
  (1 ≤ a ≤ b)%nat → Date.days_before_month y a ≤ Date.days_before_month y b.
Proof.
  intros [Ha Hab]. induction Hab as [|b Hab IH]; [lia|].
  rewrite days_before_month_succ by lia.
  pose proof (DaysInMonth_pos y (Z.of_nat b)). lia.
Qed.

Lemma month_from_spec (fuel : nat) (y m0 m dayInYear : Z) :
  1 ≤ m0 ≤ m → m - m0 ≤ Z.of_nat fuel →
  Date.days_before_month y (Z.to_nat m) ≤ dayInYear
    < Date.days_before_month y (Z.to_nat (m + 1)) →
  DateISO.month_from fuel y m0 dayInYear = m.
Proof.
  revert m0. induction fuel as [|fuel IH]; intros m0 Hle Hfuel Hday;
    cbn [DateISO.month_from].
  - lia.
  - destruct (Z.leb_spec (Date.days_before_month y (Z.to_nat (m0 + 1))) dayInYear)
      as [Hnext|Hnext].
    + apply IH; [|lia|done].
      destruct (decide (m0 = m)) as [->|]; lia.
    + destruct (decide (m0 = m)) as [|Hne]; [done|].
      pose proof (days_before_month_mono y (Z.to_nat (m0 + 1)) (Z.to_nat m)). lia.
Qed.

(** Where a calendar date falls within its year and its month. *)
Lemma day_in_year_bounds (y m d : Z) :
  1 ≤ m ≤ 12 → 1 ≤ d ≤ Date.DaysInMonth y m →
  Date.days_before_month y (Z.to_nat m) ≤ Date.days_before_month y (Z.to_nat m) + (d - 1)
    < Date.days_before_month y (Z.to_nat (m + 1)) ∧
  0 ≤ Date.days_before_month y (Z.to_nat m) + (d - 1)
    < (if Date.isLeapYear y then 366 else 365).
Proof.
  intros Hm Hd.
  replace (Z.to_nat (m + 1)) with (S (Z.to_nat m)) by lia.
  rewrite days_before_month_succ by lia. rewrite Z2Nat.id by lia.
  split; [lia|].
  pose proof (days_before_month_mono y 1 (Z.to_nat m)) as Hlow.
  pose proof (days_before_month_mono y (S (Z.to_nat m)) 13) as Hhigh.
  rewrite days_before_month_succ in Hhigh by lia. rewrite Z2Nat.id in Hhigh by lia.
  destruct (days_before_month_table y) as (H1 & _ & _ & _ & _ & _ & _ & _ & _ & _ & _ & _ & H13).
  cbv zeta in H13. rewrite H1 in Hlow. rewrite H13 in Hhigh.
  destruct (Date.isLeapYear y); lia.
Qed.

(** The year, month and day of [toISOString] are those [MakeDay] was given. *)
Lemma calendar_of_MakeDay (y m d : Z) :
  0 ≤ y ≤ 9999 → 1 ≤ m ≤ 12 → 1 ≤ d ≤ Date.DaysInMonth y m →
  let day := Date.MakeDay y m d in
  DateISO.YearFromDay day = y ∧
  DateISO.MonthFromDay y (day - Date.DayFromYear y) = m ∧
  day - Date.DayFromYear y - Date.days_before_month y (Z.to_nat m) + 1 = d.
Proof.
  intros Hy Hm Hd day. subst day. unfold Date.MakeDay.
  destruct (day_in_year_bounds y m d Hm Hd) as [Hmonth Hyear].
  split_and!.
  - unfold DateISO.YearFromDay. apply year_from_spec; [lia|lia|].
    rewrite DayFromYear_succ. lia.
  - unfold DateISO.MonthFromDay. apply month_from_spec; [lia|cbn; lia|].
    replace (Date.DayFromYear y + Date.days_before_month y (Z.to_nat m) + (d - 1)
             - Date.DayFromYear y)
      with (Date.days_before_month y (Z.to_nat m) + (d - 1)) by lia.
    done.
  - lia.
Qed.

End CalendarInverse.

(** ** Printing and reading decimal fields *)

Section Decimal.

Local Open Scope Z_scope.

Lemma append_assoc (a b c : string) : ((a ++ b) ++ c = a ++ b ++ c)%string.
Proof.
  induction a as [|x a IH]; [done|].
  rewrite !append_cons. by rewrite IH.
Qed.

Lemma length_append (a b : string) :
  String.length (a ++ b) = (String.length a + String.length b)%nat.
Proof. induction a as [|x a IH]; [done|]. rewrite append_cons. cbn. by rewrite IH. Qed.

Lemma digit_spec (c : ascii) (n : Z) :
  Date.digit c = Some n → 0 ≤ n ≤ 9 ∧ DateISO.digit_char n = c.
Proof.
  intros H.
  destruct c as [[] [] [] [] [] [] [] []]; vm_compute in H; try discriminate H;
    injection H as <-; split; first [lia | reflexivity].
Qed.

Lemma pad_snoc (w : nat) (a d : Z) :
  0 ≤ d ≤ 9 →
  DateISO.pad (S w) (10 * a + d) = (DateISO.pad w a ++ String (DateISO.digit_char d) "")%string.
Proof.
  intros Hd. cbn [DateISO.pad].
  replace ((10 * a + d) / 10) with a by (Z.div_mod_to_equations; lia).
  replace ((10 * a + d) mod 10) with d by (Z.div_mod_to_equations; lia).
  done.
Qed.

(** Reading a decimal field and printing the number back, padded to the
    width of the field, gives the field. *)
Lemma pad_digits (s : string) (acc n : Z) (w : nat) :
  Date.digits acc s = Some n →
  DateISO.pad (w + String.length s) n = (DateISO.pad w acc ++ s)%string.
Proof.
  revert acc w. induction s as [|c s IH]; intros acc w H; cbn in H.
  - injection H as <-. cbn [String.length]. rewrite Nat.add_0_r.
    clear. induction (DateISO.pad w acc) as [|x p IHp]; [done|].
    rewrite append_cons. by rewrite <- IHp.
  - destruct (Date.digit c) as [d|] eqn:Hc; [|discriminate]. cbn in H.
    destruct (digit_spec c d Hc) as [Hd <-].
    cbn [String.length]. replace (w + S (String.length s))%nat with (S w + String.length s)%nat by lia.
    rewrite (IH _ _ H), pad_snoc by done.
    by rewrite append_assoc, append_cons, append_nil_l.
Qed.

Lemma digits_bounds (s : string) (acc n : Z) :
  Date.digits acc s = Some n → 0 ≤ acc →
  acc * 10 ^ Z.of_nat (String.length s) ≤ n < (acc + 1) * 10 ^ Z.of_nat (String.length s).
Proof.
  revert acc. induction s as [|c s IH]; intros acc H Hacc; cbn in H.
  - injection H as <-. cbn. lia.
  - destruct (Date.digit c) as [d|] eqn:Hc; [|discriminate]. cbn in H.
    destruct (digit_spec c d Hc) as [Hd _].
    specialize (IH _ H ltac:(lia)).
    cbn [String.length]. rewrite Nat2Z.inj_succ, Z.pow_succ_r by lia.
    nia.
Qed.

Lemma count_T_digits (s : string) (acc n : Z) :
  Date.digits acc s = Some n → count_unit "T" s = 0%nat.
Proof.
  revert acc. induction s as [|c s IH]; intros acc H; cbn in H; [done|].
  destruct (Date.digit c) as [d|] eqn:Hc; [|discriminate]. cbn in H.
  cbn [count_unit]. rewrite (IH _ H).
  destruct c as [[] [] [] [] [] [] [] []]; vm_compute in Hc; try discriminate Hc; reflexivity.
Qed.

End Decimal.

(** ** Date-only strings and their ISO form *)

Section IsoRoundTrip.

Local Open Scope Z_scope.

(** What a string that parses as a date is made of. *)
Lemma parse_date_only_inv (s : string) (y m d : Z) :
  Date.parse_date_only s = Some (y, m, d) →
  ∃ ys ms ds,
    s = (ys ++ "-" ++ ms ++ "-" ++ ds)%string ∧
    String.length ys = 4%nat ∧ String.length ms = 2%nat ∧ String.length ds = 2%nat ∧
    Date.digits 0 ys = Some y ∧ Date.digits 0 ms = Some m ∧ Date.digits 0 ds = Some d ∧
    1 ≤ m ≤ 12 ∧ 1 ≤ d ≤ Date.DaysInMonth y m.
Proof.
  unfold Date.parse_date_only. intros H.
  destruct (String.length s =? 10)%nat eqn:Hlen; [|discriminate].
  apply Nat.eqb_eq in Hlen.
  destruct s as [|c0 s]; [discriminate|]. destruct s as [|c1 s]; [discriminate|].
  destruct s as [|c2 s]; [discriminate|]. destruct s as [|c3 s]; [discriminate|].
  destruct s as [|c4 s]; [discriminate|]. destruct s as [|c5 s]; [discriminate|].
  destruct s as [|c6 s]; [discriminate|]. destruct s as [|c7 s]; [discriminate|].
  destruct s as [|c8 s]; [discriminate|]. destruct s as [|c9 s]; [discriminate|].
  destruct s; [|discriminate]. clear Hlen.
  cbn -[Date.digits Date.DaysInMonth] in H.
  repeat case_bool_decide; try discriminate.
  repeat match goal with Heq : Some _ = Some _ |- _ => injection Heq as -> end.
  cbn -[Date.digits Date.DaysInMonth] in H.
  set (ys := String c0 (String c1 (String c2 (String c3 "")))) in *.
  set (ms := String c5 (String c6 "")) in *.
  set (ds := String c8 (String c9 "")) in *.
  destruct (Date.digits 0 ys) as [y'|] eqn:Hy; [|discriminate].
  cbn -[Date.digits Date.DaysInMonth] in H.
  destruct (Date.digits 0 ms) as [m'|] eqn:Hm; [|discriminate].
  cbn -[Date.digits Date.DaysInMonth] in H.
  destruct (Date.digits 0 ds) as [d'|] eqn:Hd; [|discriminate].
  cbn -[Date.digits Date.DaysInMonth] in H.
  destruct ((1 <=? m') && (m' <=? 12) && (1 <=? d') && (d' <=? Date.DaysInMonth y' m'))
    eqn:Hrange; [|discriminate].
  injection H as <- <- <-.
  rewrite !andb_true_iff, !Z.leb_le in Hrange.
  exists ys, ms, ds.
  split_and!; [reflexivity|reflexivity|reflexivity|reflexivity
              |exact Hy|exact Hm|exact Hd|lia|lia|lia|lia].
Qed.

Lemma toISOString_of_date (y m d : Z) :
  0 ≤ y ≤ 9999 → 1 ≤ m ≤ 12 → 1 ≤ d ≤ Date.DaysInMonth y m →
  DateISO.toISOString (Date.MakeDay y m d * Date.msPerDay) =
  (DateISO.pad 4 y ++ "-" ++ DateISO.pad 2 m ++ "-" ++ DateISO.pad 2 d
   ++ "T00:00:00.000Z")%string.
Proof.
  intros Hy Hm Hd. unfold DateISO.toISOString.
  rewrite Z_div_mult by (unfold Date.msPerDay; lia).
  rewrite Z_mod_mult.
  destruct (calendar_of_MakeDay y m d Hy Hm Hd) as (Hyear & Hmonth & Hdate).
  cbv zeta in Hyear, Hmonth, Hdate |- *.
  rewrite Hyear, Hmonth, Hdate. reflexivity.
Qed.

(** The ISO string of the instant a date-only string names is that string
    followed by midnight UTC. *)
Lemma toISOString_getTime (s : string) (t : Z) :
  Date.getTime s = Some t →
  DateISO.toISOString t = (s ++ "T00:00:00.000Z")%string ∧
  String.length s = 10%nat ∧ count_unit "T" s = 0%nat.
Proof.
  unfold Date.getTime. intros H.
  destruct (Date.parse_date_only s) as [[[y m] d]|] eqn:Hp; [|discriminate].
  cbn in H. injection H as <-.
  apply parse_date_only_inv in Hp
    as (ys & ms & ds & -> & Hly & Hlm & Hld & Hy & Hm & Hd & Hmr & Hdr).
  pose proof (digits_bounds ys 0 y Hy ltac:(lia)) as Hyb. rewrite Hly in Hyb.
  rewrite toISOString_of_date by (try done; cbn in Hyb; lia).
  pose proof (pad_digits ys 0 y 0 Hy) as Hpy. rewrite Hly in Hpy.
  pose proof (pad_digits ms 0 m 0 Hm) as Hpm. rewrite Hlm in Hpm.
  pose proof (pad_digits ds 0 d 0 Hd) as Hpd. rewrite Hld in Hpd.
  cbn [Nat.add DateISO.pad] in Hpy, Hpm, Hpd. rewrite !append_nil_l in Hpy, Hpm, Hpd.
  change (DateISO.pad 4 y) with (DateISO.pad 4 y) in *.
  split_and!.
  - cbn [DateISO.pad]. rewrite !append_nil_l. rewrite Hpy, Hpm, Hpd.
    by rewrite !append_assoc.
  - rewrite !length_append, Hly, Hlm, Hld. done.
  - rewrite !count_unit_app, (count_T_digits _ _ _ Hy), (count_T_digits _ _ _ Hm),
      (count_T_digits _ _ _ Hd). done.
Qed.

Lemma before_T_app (a r : string) :
  count_unit "T" a = 0%nat → DateISO.before_T (a ++ String "T" r) = a.
Proof.
  induction a as [|c a IH]; intros Hc.
  - done.
  - rewrite append_cons. cbn in Hc |- *.
    destruct (Ascii.eqb c "T"); [discriminate|]. by rewrite IH.
Qed.

End IsoRoundTrip.

Lemma get_append_length (a : string) (c : ascii) (r : string) :
  String.get (String.length a) (a ++ String c r) = Some c.
Proof. induction a as [|x a IH]; [done|]. rewrite append_cons. by cbn. Qed.

Lemma substring_append_prefix (a b : string) :
  substring 0 (String.length a) (a ++ b) = a.
Proof.
  induction a as [|x a IH]; [by destruct b|].
  rewrite append_cons. cbn. by rewrite IH.
Qed.

Lemma substring_append_skip (a b : string) (k n : nat) :
  substring (String.length a + k) n (a ++ b) = substring k n b.
Proof. induction a as [|x a IH]; [done|]. rewrite append_cons. by cbn. Qed.

(** Reading back the ISO form of a date-only string. *)
Lemma getTime_of_iso (s : string) (t : Z) :
  Date.getTime s = Some t →
  DateISO.getTime (s ++ "T00:00:00.000Z") = Some t.
Proof.
  intros H. destruct (toISOString_getTime s t H) as (_ & Hlen & _).
  unfold DateISO.getTime. rewrite length_append, Hlen.
  change ((10 + String.length "T00:00:00.000Z" =? 10)%nat) with false. cbv iota.
  pose proof (get_append_length s "T" "00:00:00.000Z") as Hget. rewrite Hlen in Hget.
  rewrite Hget, bool_decide_eq_true_2 by done. cbn [negb].
  pose proof (substring_append_prefix s "T00:00:00.000Z") as Hpre. rewrite Hlen in Hpre.
  rewrite Hpre, H.
  pose proof (substring_append_skip s "T00:00:00.000Z" 1 13) as Hskip.
  rewrite Hlen in Hskip. change (10 + 1)%nat with 11%nat in Hskip. rewrite Hskip.
  change (DateISO.parse_time (substring 1 13 "T00:00:00.000Z")) with (Some 0%Z).
  cbn. f_equal. lia.
Qed.

(** X26.  The due date of the task form survives the trip to the server and
    back: for a date-only field, the ISO string that is sent is the field
    followed by midnight UTC; parsing it gives the same instant, and the
    edit form of a task that carries it shows the field again. *)
Theorem due_date_round_trip (s : string) (t : Z) (task : Task) :
  Date.getTime s = Some t →
  dueDate task = Some (DateISO.toISOString t) →
  DateISO.toISOString t = s ++ "T00:00:00.000Z" ∧
  DateISO.getTime (DateISO.toISOString t) = Some t ∧
  TaskForm.dueDate (TaskFormSubmit.initialFormData (Some task)) = s.
Proof.
  intros H Htask. destruct (toISOString_getTime s t H) as (Hiso & Hlen & HnoT).
  split_and!.
  - exact Hiso.
  - rewrite Hiso. by apply getTime_of_iso.
  - cbn. rewrite Htask, Hiso. cbn [truthy_opt to_js_string].
    destruct s as [|c s]; [discriminate|].
    rewrite append_cons. cbn [truthy]. rewrite <- append_cons.
    by apply before_T_app.
Qed.

Lemma due_date_round_trip_witness :
  Date.getTime "2024-06-15" = Some 1718409600000%Z ∧
  dueDate rent_task = Some (DateISO.toISOString 1718409600000) ∧
  TaskForm.dueDate (TaskFormSubmit.initialFormData (Some rent_task)) = "2024-06-15".
Proof.
  assert (Htask : dueDate rent_task = Some (DateISO.toISOString 1718409600000))
    by (vm_compute; reflexivity).
  split_and!; [reflexivity|exact Htask|].
  exact (proj2 (proj2 (due_date_round_trip "2024-06-15" 1718409600000 rent_task
                         eq_refl Htask))).
Defined.

(** ** Submitting the task form *)

Lemma bind_returned {A B} (m : M A) (f : A → M B) (w w1 : World) (a : A) :
  m w = (Returned a, w1) → (m ≫= f) w = f a w1.
Proof. intros H. unfold mbind, M_bind. by rewrite H. Qed.

Lemma createTask_result (taskData : TaskData) (out : ApiOutcome (Body Task))
    (stats_out : ApiOutcome (Body TaskStats)) (w : World) :
  result (createTask taskData out stats_out) w = Returned (accepted out).
Proof.
  unfold createTask. unfold_M. destruct out as [b|e]; cbn.
  - destruct (success b); [settle_stats|]; done.
  - settle_interceptor; done.
Qed.

Lemma updateTask_result (id : string) (taskData : TaskData) (out : ApiOutcome (Body Task))
    (stats_out : ApiOutcome (Body TaskStats)) (w : World) :
  result (updateTask id taskData out stats_out) w = Returned (accepted out).
Proof.
  unfold updateTask. unfold_M. destruct out as [b|e]; cbn.
  - destruct (success b); [settle_stats|]; done.
  - settle_interceptor; done.
Qed.

(** X27.  Submitting the task form.  With validation errors nothing is sent
    and the errors are shown.  A valid form whose due date is empty or a
    date has exactly the effect of [createTask] (or, when editing, of
    [updateTask] on the edited task's identifier) with the form's fields as
    payload, the due date as ISO midnight UTC or absent; the form ends not
    loading, and [onSuccess] is called exactly when the server accepted. *)
Theorem taskform_submit_outcomes
    (clk : Date.Clock) (task : option Task) (st : TaskFormSubmit.State)
    (out : ApiOutcome (Body Task)) (stats_out : ApiOutcome (Body TaskStats)) (w : World) :
  let fd := TaskFormSubmit.formData st in
  let m := TaskFormSubmit.handleSubmit clk task st out stats_out in
  TaskForm.dueDate fd = "" ∨ is_Some (Date.getTime (TaskForm.dueDate fd)) →
  if (TaskForm.validateForm clk fd).2 then
    let taskData :=
      mkTaskData (Some (TaskForm.title fd)) (Some (TaskForm.description fd))
                 (Some (TaskForm.status fd)) (Some (TaskForm.priority fd))
                 (if truthy (TaskForm.dueDate fd)
                  then Some (TaskForm.dueDate fd ++ "T00:00:00.000Z") else None)
                 (Some (TaskForm.category fd)) in
    exec m w = exec (match task with
                     | Some t => updateTask (_id t) taskData out stats_out
                     | None => createTask taskData out stats_out
                     end) w ∧
    result m w = Returned (TaskFormSubmit.mkState fd false ∅
                             (if accepted out then true else TaskFormSubmit.succeeded st))
  else
    exec m w = w ∧
    result m w = Returned (TaskFormSubmit.mkState fd (TaskFormSubmit.loading st)
                             (TaskForm.newErrors clk fd) (TaskFormSubmit.succeeded st)) ∧
    TaskForm.newErrors clk fd ≠ ∅.
Proof.
  intros fd m Hdate. subst m. unfold TaskFormSubmit.handleSubmit. fold fd.
  destruct (TaskForm.validateForm clk fd) as [errs valid] eqn:Hvf.
  unfold TaskForm.validateForm in Hvf. injection Hvf as <- <-. cbn [snd].
  destruct (bool_decide _) eqn:Hv; cbn [negb].
  - apply verdict_true in Hv. rewrite Hv.
    assert (Hiso : (if truthy (TaskForm.dueDate fd)
                    then s ← TaskFormSubmit.dueDate_toISOString (TaskForm.dueDate fd);
                         mret (Some s)
                    else mret None) w
                   = (Returned (if truthy (TaskForm.dueDate fd)
                                then Some (TaskForm.dueDate fd ++ "T00:00:00.000Z")
                                else None), w)).
    { destruct Hdate as [->|[t Ht]]; [done|].
      destruct (toISOString_getTime _ _ Ht) as (Hiso & _).
      unfold TaskFormSubmit.dueDate_toISOString. rewrite Ht.
      destruct (truthy (TaskForm.dueDate fd)); [|done].
      unfold mbind, M_bind, mret, M_ret. by rewrite Hiso. }
    unfold exec, result. rewrite !(bind_returned _ _ _ _ _ Hiso). cbv zeta.
    set (td := mkTaskData _ _ _ _ _ _).
    assert (Hres : ∀ w0, ∃ w1,
      match task with
      | Some t => updateTask (_id t) td out stats_out
      | None => createTask td out stats_out
      end w0 = (Returned (accepted out), w1)).
    { intros w0. destruct task as [t|].
      - pose proof (updateTask_result (_id t) td out stats_out w0) as Hr.
        unfold result in Hr. destruct (updateTask _ _ _ _ w0) as [c w1].
        cbn in Hr. subst c. by exists w1.
      - pose proof (createTask_result td out stats_out w0) as Hr.
        unfold result in Hr. destruct (createTask _ _ _ w0) as [c w1].
        cbn in Hr. subst c. by exists w1. }
    destruct (Hres w) as [w1 Hw1]. rewrite !(bind_returned _ _ _ _ _ Hw1), Hw1. done.
  - split_and!; [done|done|].
    intros Hempty. apply verdict_true in Hempty. congruence.
Qed.

Lemma taskform_submit_outcomes_witness :
  let st := TaskFormSubmit.mkState rent_form false ∅ false in
  let out := Resolve (mkBody true rent_task None) in
  let w' := exec (TaskFormSubmit.handleSubmit evening_in_nairobi None st out
                    (Reject transport_failure)) distinct_world in
  (TaskForm.dueDate rent_form = "" ∨ is_Some (Date.getTime (TaskForm.dueDate rent_form))) ∧
  (TaskForm.validateForm evening_in_nairobi rent_form).2 = true ∧
  tasks w' = rent_task :: tasks distinct_world.
Proof.
  intros st out w'.
  assert (Hdate : TaskForm.dueDate rent_form = "" ∨
                  is_Some (Date.getTime (TaskForm.dueDate rent_form)))
    by (right; by eexists).
  split_and!; [exact Hdate|reflexivity|].
  pose proof (taskform_submit_outcomes evening_in_nairobi None st out
                (Reject transport_failure) distinct_world Hdate) as H.
  change ((TaskForm.validateForm evening_in_nairobi (TaskFormSubmit.formData st)).2)
    with true in H. cbv iota zeta in H.
  destruct H as [Hexec _]. subst w'. rewrite Hexec. reflexivity.
Defined.

(** ** The overdue mark *)

(** X28.  The overdue mark of the task list compares the due instant with
    the current instant: for a task whose due date was entered as the
    date-only field [s], it is set exactly when the task is not completed
    and midnight UTC of that day has passed.  So in a zone at or ahead of
    UTC a task due on the current day passes the form's due-date test and
    is marked overdue once that midnight is behind. *)
Theorem overdue_mark_from_midnight_utc
    (clk : Date.Clock) (s : string) (t : Z) (status : Status) :
  Date.getTime s = Some t →
  isOverdue clk (DateISO.toISOString t) status =
    match status with
    | completed => false
    | _ => (t <? Date.now clk)%Z
    end ∧
  (Date.day_of s = Some (Date.today clk) →
   (0 ≤ Date.utc_offset_minutes clk < 1440)%Z →
   status ≠ completed → (t < Date.now clk)%Z →
   TaskForm.due_date_in_past clk s = false ∧
   isOverdue clk (DateISO.toISOString t) status = true).
Proof.
  intros Ht.
  assert (Hover : isOverdue clk (DateISO.toISOString t) status =
                  match status with
                  | completed => false
                  | _ => (t <? Date.now clk)%Z
                  end).
  { unfold isOverdue.
    destruct (toISOString_getTime s t Ht) as (-> & _).
    rewrite (getTime_of_iso s t Ht). by destruct status. }
  split; [exact Hover|].
  intros Hday Hoff Hst Hnow. split.
  - destruct (TaskForm.due_date_in_past clk s) eqn:Hpast; [|done].
    rewrite (due_date_in_past_days clk s _ Hday) in Hpast.
    apply Z.ltb_lt in Hpast.
    unfold Date.LocalTZA, Date.msPerMinute in Hpast. lia.
  - rewrite Hover. destruct status; [by apply Z.ltb_lt|by apply Z.ltb_lt|done].
Qed.

Lemma overdue_mark_from_midnight_utc_witness :
  Date.getTime "2024-06-15" = Some 1718409600000%Z ∧
  Date.day_of "2024-06-15" = Some (Date.today evening_in_nairobi) ∧
  TaskForm.due_date_in_past evening_in_nairobi "2024-06-15" = false ∧
  isOverdue evening_in_nairobi (DateISO.toISOString 1718409600000) pending = true.
Proof.
  split; [reflexivity|]. split; [reflexivity|].
  apply (overdue_mark_from_midnight_utc evening_in_nairobi "2024-06-15" 1718409600000
           pending eq_refl); [reflexivity|cbn; lia|discriminate|reflexivity].
Defined.

(** ** Submitting and cancelling the profile form *)

(** X29.  The profile form.  With validation errors nothing is sent and the
    page stays in edit mode.  A valid form the server accepts sends exactly
    one [PUT /auth/profile] with the form's name and e-mail, makes the
    returned user the session user, leaves the stored token alone and
    leaves edit mode; cancelling afterwards shows that user's name and
    e-mail. *)
Theorem profile_submit_then_cancel
    (st : Profile.State) (b : AuthBody) (u : User) (w : World) :
  auth_success b = true →
  auth_user b = Some u →
  let fd := Profile.formData st in
  let m := Profile.handleSubmit st (Resolve b) in
  if (Profile.validateForm st).2 then
    requests (exec m w) =
      (requests w ++ [mkRequest PUT "/auth/profile"
                        (ProfilePayload (Some (Profile.name fd)) (Some (Profile.email fd)))
                        (token w)])%list ∧
    user (exec m w) = Some u ∧ token (exec m w) = token w ∧
    result m w = Returned (Profile.mkState fd false false ∅) ∧
    Profile.formData (Profile.handleCancel (user (exec m w)) st)
      = Profile.mkFormData (name u) (email u)
  else
    exec m w = w ∧
    result m w = Returned (Profile.mkState fd (Profile.isEditing st) (Profile.loading st)
                             (Profile.newErrors fd)) ∧
    Profile.newErrors fd ≠ ∅.
Proof.
  intros Hs Hu fd m. subst m fd. unfold Profile.handleSubmit.
  destruct (Profile.validateForm st) as [st1 valid] eqn:Hvf.
  unfold Profile.validateForm in Hvf. injection Hvf as <- <-. cbn [snd].
  destruct (bool_decide _) eqn:Hv; cbn [negb].
  - apply verdict_true in Hv.
    unfold updateProfile. unfold_M. rewrite Hs. cbn. rewrite Hu, Hv.
    split_and!; try done.
    unfold Profile.initialFormData. cbn. by destruct (name u), (email u).
  - split_and!; [done|done|].
    intros Hempty. apply verdict_true in Hempty. congruence.
Qed.

Lemma profile_submit_then_cancel_witness :
  let u := mkUser "u1" "Ada L." "ada@example.org" "user" "2024-01-01T00:00:00.000Z" None in
  let b := mkAuthBody true None (Some u) None in
  let st := Profile.mkState (Profile.mkFormData "Ada L." "ada@example.org") true false ∅ in
  auth_success b = true ∧ auth_user b = Some u ∧
  user (exec (Profile.handleSubmit st (Resolve b)) sample_world) = Some u.
Proof.
  intros u b st.
  pose proof (profile_submit_then_cancel st b u sample_world eq_refl eq_refl) as H.
  change ((Profile.validateForm st).2) with true in H. cbv iota zeta in H.
  destruct H as (_ & Huser & _).
  split_and!; [reflexivity|reflexivity|exact Huser].
Defined.
